(** * ptd_header_parser: the trailer protocol and the header normalisation

    A shallow embedding of [ptd_header_parser.py] and the properties of
    its container trailer reader ([ptd_reader]), its value normaliser
    ([assign_type], [format_string]) and its header flattener
    ([get_seq_data], [parse_header]).

    Conventions of the embedding.
    - A Python [str] is a [string]; its characters are the code points
      0..255, so the characters above 127 are the non-ASCII ones.
    - A [bytes] object is a [list byte].
    - A Python [dict] is an association list with unique keys, kept in
      insertion order ([dict_set] replaces in place, as Python does).
    - A Python exception is a value of [exn]; code that can raise
      returns [res A = exn + A].
    - [int(str)] and [float(str)] follow the grammar of CPython 3.6 and
      later (surrounding white space, sign, single underscores between
      digits); the limit that later interpreters put on the number of
      digits of [int] is not modelled.
    - A Python [float] is written as the decimal it was parsed from; the
      only thing the program observes of a float is whether it is zero,
      which [float_is_zero] decides exactly for IEEE binary64 rounding. *)

From Stdlib Require Import List String Ascii ZArith NArith Lia Bool.
From Stdlib Require Import Strings.Byte DecimalString DecimalPos Permutation.
Import ListNotations.
Set Warnings "-register-all".
Local Open Scope string_scope.
Local Open Scope Z_scope.

(** ** Python runtime: exceptions and results *)

Inductive exn : Type :=
| ValueError
| TypeError
| OverflowError
| OSError                 (* errno EINVAL: seek before the start of the file *)
| StructError             (* struct.error: wrong buffer size for the format *)
| InvalidDicomError       (* raised by the decoder, pydicom.read_file *)
| SystemExit (code : Z).

Definition res (A : Type) : Type := (exn + A)%type.

Definition ret {A} (a : A) : res A := inr a.
Definition raise {A} (e : exn) : res A := inl e.
Definition bind {A B} (m : res A) (k : A -> res B) : res B :=
  match m with
  | inl e => inl e
  | inr a => k a
  end.

Declare Scope res_scope.
Delimit Scope res_scope with res.
Notation "x <- m ;; k" := (bind m (fun x => k))
  (at level 61, m at next level, right associativity) : res_scope.

(** [[f(x) for x in xs]]: the first exception raised ends the comprehension. *)
Fixpoint mapM {A B} (f : A -> res B) (xs : list A) : res (list B) :=
  match xs with
  | [] => ret []
  | x :: xs' =>
      (y <- f x ;; ys <- mapM f xs' ;; ret (y :: ys))%res
  end.

(** A [for] loop that updates an accumulator and may raise. *)
Fixpoint foldM {A S} (f : S -> A -> res S) (xs : list A) (s : S) : res S :=
  match xs with
  | [] => ret s
  | x :: xs' => (s' <- f s x ;; foldM f xs' s')%res
  end.

(** ** Python runtime: floats as parsed decimals *)

Inductive pyfloat : Type :=
| FDec (neg : bool) (m : N) (e : Z)   (* the double nearest to (-1)^neg * m * 10^e *)
| FInf (neg : bool)
| FNan.

(** A decimal rounds to zero in binary64 (round to nearest, ties to even)
    exactly when its magnitude is at most 2^-1075, half of the least
    subnormal. *)
Definition float_is_zero (f : pyfloat) : bool :=
  match f with
  | FDec _ m e =>
      if (m =? 0)%N then true
      else if e <? 0 then Z.of_N m * 2 ^ 1075 <=? 10 ^ (- e)
      else false
  | FInf _ => false
  | FNan => false
  end.

(** [float(n)] for an [int]: OverflowError when the nearest double is
    infinite, that is from 2^1024 - 2^970 on. *)
Definition float_of_int (n : Z) : res pyfloat :=
  if 2 ^ 1024 - 2 ^ 970 <=? Z.abs n then raise OverflowError
  else ret (FDec (n <? 0) (Z.abs_N n) 0).

(** ** Python runtime: values the normaliser produces *)

Inductive pyval : Type :=
| PNone
| PInt (n : Z)
| PFloat (f : pyfloat)
| PStr (s : string)
| PList (xs : list pyval)
| PDict (d : list (string * pyval)).

Definition dict : Type := list (string * pyval).

(** [d[k] = v] *)
Fixpoint dict_set (k : string) (v : pyval) (d : dict) : dict :=
  match d with
  | [] => [(k, v)]
  | (k', v') :: d' =>
      if String.eqb k k' then (k, v) :: d' else (k', v') :: dict_set k v d'
  end.

(** [d.get(k)] *)
Fixpoint dict_get (k : string) (d : dict) : option pyval :=
  match d with
  | [] => None
  | (k', v') :: d' => if String.eqb k k' then Some v' else dict_get k d'
  end.

Definition dict_keys (d : dict) : list string := map fst d.

(** [bool(v)], the test of [if v:] *)
Definition truthy (v : pyval) : bool :=
  match v with
  | PNone => false
  | PInt n => negb (n =? 0)
  | PFloat f => negb (float_is_zero f)
  | PStr s => negb (String.length s =? 0)%nat
  | PList xs => match xs with [] => false | _ => true end
  | PDict d => match d with [] => false | _ => true end
  end.

(** ** Python runtime: characters and the numeric grammars *)

Definition code (c : ascii) : N := N_of_ascii c.

Definition is_digit (c : ascii) : bool := ((48 <=? code c) && (code c <=? 57))%N.
Definition digit_val (c : ascii) : Z := Z.of_N (code c) - 48.

(** White space that [int] and [float] strip: the ASCII set of
    Py_ISSPACE, and U+0085 and U+00A0, which a non-ASCII str has turned
    into spaces before parsing.  U+001C..U+001F are not stripped. *)
Definition py_isspace (c : ascii) : bool :=
  (((9 <=? code c) && (code c <=? 13)) || (code c =? 32)
   || (code c =? 133) || (code c =? 160))%N.

Fixpoint lstrip (l : list ascii) : list ascii :=
  match l with
  | c :: r => if py_isspace c then lstrip r else l
  | [] => []
  end.

Definition strip (l : list ascii) : list ascii :=
  rev (lstrip (rev (lstrip l))).

Definition is_underscore (c : ascii) : bool := (code c =? 95)%N.

(** Digits with single underscores between them, after a first digit. *)
Fixpoint digits_tail (acc : Z) (prev_us : bool) (l : list ascii) : option Z :=
  match l with
  | [] => if prev_us then None else Some acc
  | c :: r =>
      if is_digit c then digits_tail (10 * acc + digit_val c) false r
      else if is_underscore c then
        if prev_us then None else digits_tail acc true r
      else None
  end.

Definition digits_us (l : list ascii) : option Z :=
  match l with
  | c :: r => if is_digit c then digits_tail (digit_val c) false r else None
  | [] => None
  end.

(** An optional sign: [(negative, rest)]. *)
Definition split_sign (l : list ascii) : bool * list ascii :=
  match l with
  | c :: r =>
      if (code c =? 45)%N then (true, r)
      else if (code c =? 43)%N then (false, r)
      else (false, l)
  | [] => (false, [])
  end.

(** [int(s)], base 10 *)
Definition py_int (s : string) : res Z :=
  let (neg, body) := split_sign (strip (list_ascii_of_string s)) in
  match digits_us body with
  | Some n => ret (if neg then - n else n)
  | None => raise ValueError
  end.

(** Remove the underscores of a float literal; each must stand between
    two digits.  [prev] is the previous character, NUL at the start. *)
Fixpoint remove_underscores (prev : ascii) (l : list ascii) : option (list ascii) :=
  match l with
  | [] => if is_underscore prev then None else Some []
  | c :: r =>
      if is_underscore c then
        if is_digit prev then remove_underscores c r else None
      else if is_underscore prev && negb (is_digit c) then None
      else option_map (cons c) (remove_underscores c r)
  end.

Fixpoint span_digits (l : list ascii) : list ascii * list ascii :=
  match l with
  | c :: r =>
      if is_digit c then let (ds, rest) := span_digits r in (c :: ds, rest)
      else ([], l)
  | [] => ([], [])
  end.

Definition digits_value (ds : list ascii) : Z :=
  fold_left (fun acc c => 10 * acc + digit_val c) ds 0.

Definition lower (c : ascii) : ascii :=
  if ((65 <=? code c) && (code c <=? 90))%N then ascii_of_N (code c + 32) else c.

Definition is_word (w : string) (l : list ascii) : bool :=
  if list_eq_dec ascii_dec (map lower l) (list_ascii_of_string w) then true else false.

Definition is_nil {A} (l : list A) : bool :=
  match l with [] => true | _ => false end.

(** The exponent part: empty, or [e] or [E], an optional sign and digits. *)
Definition parse_exponent (l : list ascii) : option Z :=
  match l with
  | [] => Some 0
  | c :: r =>
      if (code (lower c) =? 101)%N then
        let (neg, r1) := split_sign r in
        let (ds, r2) := span_digits r1 in
        if is_nil ds || negb (is_nil r2) then None
        else Some (if neg then - digits_value ds else digits_value ds)
      else None
  end.

(** Digits, an optional point and digits, an optional exponent; at least
    one digit before or after the point. *)
Definition parse_decimal (neg : bool) (l : list ascii) : option pyfloat :=
  let (ip, r1) := span_digits l in
  let (fp, r2) :=
    match r1 with
    | c :: r => if (code c =? 46)%N then span_digits r else ([], r1)
    | [] => ([], r1)
    end in
  if is_nil ip && is_nil fp then None
  else
    match parse_exponent r2 with
    | Some ex =>
        Some (FDec neg (Z.to_N (digits_value (ip ++ fp)))
                   (ex - Z.of_nat (List.length fp)))
    | None => None
    end.

(** [float(s)] *)
Definition py_float (s : string) : res pyfloat :=
  match remove_underscores "000"%char (strip (list_ascii_of_string s)) with
  | None => raise ValueError
  | Some l =>
      let (neg, body) := split_sign l in
      if is_word "inf" body || is_word "infinity" body then ret (FInf neg)
      else if is_word "nan" body then ret FNan
      else
        match parse_decimal neg body with
        | Some f => ret f
        | None => raise ValueError
        end
  end.

(** [str(n)] for an [int] *)
Definition py_str_int (n : Z) : string := NilZero.string_of_int (Z.to_int n).

(** ** The decoded data set (what pydicom hands to the program)

    A data set lists each of its tags once, with the value that
    [ptd.get(tag)] or [getattr(seq, s_key, '')] returns for it, so a
    loop over [dir()] visits these pairs.  The constructors are the
    run-time types the program tells apart.  The elements of a
    multi-valued element are strs or ints; lists of floats and values of
    other types (bytes) are outside the model. *)

Inductive elem : Type :=
| EStr (s : string)       (* a str element *)
| EInt (n : Z).           (* an int element (IS and the integer VRs) *)

Inductive plain : Type :=
| VStr (s : string)           (* type(value) == str *)
| VInt (n : Z)                (* int and its subclasses (IS) *)
| VFloat (text : string)      (* float and its subclasses (DSfloat), with its str() *)
| VPersonName (s : string)    (* pydicom.valuerep.PersonName*, with its str() *)
| VUID (s : string)           (* pydicom.UID.UID, a subclass of str *)
| VMulti (xs : list elem).    (* list or pydicom.multival.MultiValue *)

Inductive value : Type :=
| Plain (p : plain)
| Sequence (groups : list (list (string * value))).   (* pydicom.sequence.Sequence *)

Definition dataset : Type := list (string * value).

(** ** ValueNormalizer: [format_string] and [assign_type] *)

Fixpoint sfilter (f : ascii -> bool) (s : string) : string :=
  match s with
  | EmptyString => EmptyString
  | String c r => if f c then String c (sfilter f r) else sfilter f r
  end.

(** The class [[\x00-\x7f]] of the regular expression. *)
Definition is_ascii (c : ascii) : bool := (code c <=? 127)%N.

(** Membership in [string.printable]: digits, letters, punctuation and
    the white space [' \t\n\r\x0b\x0c']. *)
Definition printable (c : ascii) : bool :=
  (((32 <=? code c) && (code c <=? 126)) || ((9 <=? code c) && (code c <=? 13)))%N.

Definition format_string (in_string : string) : pyval :=
  let formatted := sfilter is_ascii in_string in
  let formatted := sfilter printable formatted in
  if ((String.length formatted =? 1)%nat && String.eqb formatted "?")
     || (String.length formatted =? 0)%nat
  then PNone
  else PStr formatted.

(** [try: m  except ValueError: handler] *)
Definition except_ValueError {A} (m : res A) (handler : res A) : res A :=
  match m with
  | inl ValueError => handler
  | _ => m
  end.

Definition elem_int (x : elem) : res Z :=
  match x with
  | EStr s => py_int s
  | EInt n => ret n
  end.

Definition elem_float (x : elem) : res pyfloat :=
  match x with
  | EStr s => py_float s
  | EInt n => float_of_int n
  end.

(** [len(x)]: an int has no length. *)
Definition elem_len (x : elem) : res nat :=
  match x with
  | EStr s => ret (String.length s)
  | EInt _ => raise TypeError
  end.

Definition elem_str (x : elem) : string :=
  match x with
  | EStr s => s
  | EInt n => py_str_int n
  end.

(** [[format_string(x) for x in s if len(x) > 0]] *)
Fixpoint format_nonempty (xs : list elem) : res (list pyval) :=
  match xs with
  | [] => ret []
  | x :: r =>
      (n <- elem_len x ;;
       ys <- format_nonempty r ;;
       ret (if (0 <? n)%nat then format_string (elem_str x) :: ys else ys))%res
  end.

(** [str(s)] of a scalar *)
Definition py_str (s : plain) : string :=
  match s with
  | VStr t => t
  | VInt n => py_str_int n
  | VFloat t => t
  | VPersonName t => t
  | VUID t => t
  | VMulti _ => ""        (* not reached: lists take the branch before *)
  end.

Definition assign_type (s : plain) : res pyval :=
  match s with
  | VPersonName n => ret (format_string n)
  | VMulti xs =>
      except_ValueError
        (l <- mapM elem_int xs ;; ret (PList (map PInt l)))%res
        (except_ValueError
           (l <- mapM elem_float xs ;; ret (PList (map PFloat l)))%res
           (l <- format_nonempty xs ;; ret (PList l))%res)
  | VStr _ | VInt _ | VFloat _ | VUID _ =>
      let s := py_str s in
      except_ValueError
        (n <- py_int s ;; ret (PInt n))%res
        (except_ValueError
           (f <- py_float s ;; ret (PFloat f))%res
           (ret (format_string s)))
  end.

(** ** HeaderFlattener: [get_seq_data] and [parse_header] *)

Definition mem (k : string) (l : list string) : bool := existsb (String.eqb k) l.

Definition is_uid (p : plain) : bool :=
  match p with VUID _ => true | _ => false end.

(** [if v: ...]: a value is kept when it is truthy. *)
Definition kept (v : pyval) : option pyval :=
  if truthy v then Some v else None.

(** [seq_dict[s_key] = v] when the loop body stores something. *)
Definition store (k : string) (o : option pyval) (d : dict) : dict :=
  match o with
  | Some v => dict_set k v d
  | None => d
  end.

(** The body of the inner loop of [get_seq_data] for one tag of one
    group: what it stores under [s_key], [None] when it stores nothing.
    The recursive call on a nested sequence starts from an empty
    [seq_dict] and runs the same two loops. *)
Fixpoint seq_item (ignore_keys : list string) (s_key : string) (s_val : value)
  {struct s_val} : res (option pyval) :=
  match s_val with
  | Plain p =>
      if is_uid p || mem s_key ignore_keys then ret None
      else
        (v <- match p with
              | VStr s => ret (format_string s)
              | _ => assign_type p
              end ;;
         ret (kept v))%res
  | Sequence groups =>
      if mem s_key ignore_keys then ret None
      else
        (_seq <- (fix groups_loop (gs : list (list (string * value))) (d : dict)
                    {struct gs} : res dict :=
                    match gs with
                    | [] => ret d
                    | g :: gs' =>
                        (d' <- (fix entries_loop (es : list (string * value)) (d : dict)
                                  {struct es} : res dict :=
                                  match es with
                                  | [] => ret d
                                  | (k, v) :: es' =>
                                      (o <- seq_item ignore_keys k v ;;
                                       entries_loop es' (store k o d))%res
                                  end) g d ;;
                         groups_loop gs' d')%res
                    end) groups [] ;;
         ret (Some (PDict _seq)))%res
  end.

(** [for s_key in seq.dir(): ...] over one group. *)
Definition seq_group (ignore_keys : list string) (seq_dict : dict)
  (seq : list (string * value)) : res dict :=
  foldM (fun d '(s_key, s_val) =>
           (o <- seq_item ignore_keys s_key s_val ;; ret (store s_key o d))%res)
        seq seq_dict.

Definition get_seq_data (sequence : list (list (string * value)))
  (ignore_keys : list string) : res dict :=
  foldM (seq_group ignore_keys) sequence [].

Definition exclude_tags : list string :=
  ["[Unknown]"; "PixelData"; "Pixel Data"; "[User defined data]";
   "[Protocol Data Block (compressed)]"; "[Histogram tables]";
   "[Unique image iden]"].

(** [value or value == 0] *)
Definition has_value (p : plain) : bool :=
  match p with
  | VStr s | VPersonName s | VUID s => negb (String.length s =? 0)%nat
  | VInt _ | VFloat _ => true
  | VMulti xs => negb (is_nil xs)
  end.

(** The body of the [try] of [parse_header] for one tag. *)
Definition parse_tag (header : dict) (tag : string) (v : value) : res dict :=
  (formatted <-
     match v with
     | Plain value =>
         if negb (mem tag exclude_tags) then
           if has_value value then
             match value with
             | VStr s =>
                 if Z.of_nat (String.length s) <? 10240 then ret (format_string s)
                 else assign_type value
             | _ => assign_type value
             end
           else ret PNone
         else ret PNone
     | Sequence _ => ret PNone
     end ;;
   let header := if truthy formatted then dict_set tag formatted header else header in
   match v with
   | Sequence groups =>
       (seq_data <- get_seq_data groups exclude_tags ;;
        ret (if truthy (PDict seq_data) then dict_set tag (PDict seq_data) header
             else header))
   | Plain _ => ret header
   end)%res.

(** [try: ... except: pass]: a tag whose body raises leaves [header] as
    it was (the body writes to [header] only as its last step). *)
Definition parse_header (ptd : dataset) : dict :=
  fold_left (fun header '(tag, v) =>
               match parse_tag header tag v with
               | inr header' => header'
               | inl _ => header
               end)
            ptd [].

(** ** TrailerLocator: [ptd_reader]

    The open file is its contents, the position of the handle and the
    trace of what the run did to the outside world.  A computation
    returns its result, or the exception it raised, with the world it
    left behind. *)

Inductive event : Type :=
| EvRead (pos n : Z)                      (* fp.read(n) with the handle at pos *)
| EvPrint (msg : string)                  (* print(msg) *)
| EvWrite (path : string) (doc : pyval).  (* json.dump(doc, open(path, 'w')) *)

Record world : Type := mkWorld { fpos : Z; trace : list event }.

Definition io (A : Type) : Type := world -> res A * world.

Definition io_ret {A} (a : A) : io A := fun w => (inr a, w).
Definition io_raise {A} (e : exn) : io A := fun w => (inl e, w).
Definition io_bind {A B} (m : io A) (k : A -> io B) : io B :=
  fun w =>
    match m w with
    | (inl e, w') => (inl e, w')
    | (inr a, w') => k a w'
    end.
Definition io_lift {A} (r : res A) : io A := fun w => (r, w).

Declare Scope io_scope.
Delimit Scope io_scope with io.
Notation "x <- m ;; k" := (io_bind m (fun x => k))
  (at level 61, m at next level, right associativity) : io_scope.
Notation "m ;; k" := (io_bind m (fun _ => k))
  (at level 61, right associativity) : io_scope.

Definition emit (e : event) : io unit :=
  fun w => (inr tt, mkWorld (fpos w) (trace w ++ [e])).

Definition print (msg : string) : io unit := emit (EvPrint msg).

Definition initial_world : world := mkWorld 0 [].

(** [sys.byteorder] of the host, which [struct]'s native formats follow. *)
Inductive byteorder : Type := little | big.

Definition byte_val (b : byte) : Z := Z.of_N (Byte.to_N b).

(** [struct.calcsize('i')] *)
Definition calcsize_i : Z := 4.

(** [struct.unpack('i', b)[0]]: a signed 32-bit integer in native order. *)
Definition unpack_i (bo : byteorder) (b : list byte) : res Z :=
  match b with
  | [b0; b1; b2; b3] =>
      let u :=
        match bo with
        | little => byte_val b0 + 2 ^ 8 * byte_val b1 + 2 ^ 16 * byte_val b2
                    + 2 ^ 24 * byte_val b3
        | big => byte_val b3 + 2 ^ 8 * byte_val b2 + 2 ^ 16 * byte_val b1
                 + 2 ^ 24 * byte_val b0
        end in
      ret (if 2 ^ 31 <=? u then u - 2 ^ 32 else u)
  | _ => raise StructError
  end.

Definition bytes_eqb (a b : list byte) : bool :=
  if list_eq_dec Byte.byte_eq_dec a b then true else false.

Definition MAGIC_STR : list byte := list_byte_of_string "LARGE_PET_LM_RAWDATA".
Definition MAGIC_STR_LEN : Z := Z.of_nat (List.length MAGIC_STR).

Section Reader.

(** The host's byte order and the decoder, [pydicom.read_file]. *)
Variable host : byteorder.
Variable T : Type.
Variable read_file : list byte -> res T.

(** The bytes of the file that [fp] is opened on. *)
Variable contents : list byte.

(** [fp.seek(off, 2)]: relative to the end of the file; a position
    before the start of the file is refused with OSError. *)
Definition seek_end (off : Z) : io unit :=
  fun w =>
    let p := Z.of_nat (List.length contents) + off in
    if p <? 0 then (inl OSError, w) else (inr tt, mkWorld p (trace w)).

(** [fp.read(n)]: at most [n] bytes from the position, all the
    remaining ones when [n] is -1; a length below -1 is refused with
    ValueError. *)
Definition read (n : Z) : io (list byte) :=
  fun w =>
    if n <? -1 then (inl ValueError, w)
    else
      let avail := skipn (Z.to_nat (fpos w)) contents in
      let out := if n =? -1 then avail else firstn (Z.to_nat n) avail in
      (inr out,
       mkWorld (fpos w + Z.of_nat (List.length out)) (trace w ++ [EvRead (fpos w) n])).

Definition ptd_reader : io T :=
  (seek_end (- MAGIC_STR_LEN) ;;
   magic <- read MAGIC_STR_LEN ;;
   (if negb (bytes_eqb magic MAGIC_STR) then
      print "ERROR: This is not a .ptd file." ;;
      io_raise (SystemExit 1)
    else io_ret tt) ;;
   seek_end (- MAGIC_STR_LEN - calcsize_i) ;;
   field <- read calcsize_i ;;
   offset <- io_lift (unpack_i host field) ;;
   seek_end (- offset - MAGIC_STR_LEN - calcsize_i) ;;
   dcm_buf <- read offset ;;
   io_lift (read_file dcm_buf))%io.

End Reader.

(** ** The gear script *)

Record config : Type := mkConfig {
  ptd_file : string;          (* config['inputs']['ptd_file']['location']['path'] *)
  ptd_name : string;          (* config['inputs']['ptd_file']['location']['name'] *)
  hierarchy_level : string;   (* config['inputs']['ptd_file']['hierarchy']['type'] *)
  custom_label : string       (* config['config']['custom_label'] *)
}.

Definition output_filepath : string := "/flywheel/v0/output/.metadata.json".

(** [s.endswith(suffix)] *)
Definition endswith (s suffix : string) : bool :=
  let n := String.length s in
  let k := String.length suffix in
  (k <=? n)%nat && String.eqb (substring (n - k) k s) suffix.

Section Gear.

Variable host : byteorder.
Variable read_file : list byte -> res dataset.

(** The script from the extension check on; [contents] are the bytes
    of the file at [ptd_file].  Logging calls are left out. *)
Definition main (cfg : config) (contents : list byte) : io unit :=
  if endswith (ptd_file cfg) ".ptd" then
    (ptd <- ptd_reader host dataset read_file contents ;;
     let ptd_header := parse_header ptd in
     let PET_dict :=
       PDict [("name", PStr (ptd_name cfg));
              ("info", PDict [("dicom", PDict ptd_header)]);
              ("modality", PStr "PT")] in
     let metadata_json_out :=
       PDict [(hierarchy_level cfg, PDict [("files", PList [PET_dict])])] in
     emit (EvWrite output_filepath metadata_json_out))%io
  else io_raise (SystemExit 1).

End Gear.

(** The exit status of the process: 0 after a normal end, the code of
    [sys.exit], 1 after any other uncaught exception. *)
Definition exit_status {A} (r : res A) : Z :=
  match r with
  | inr _ => 0
  | inl (SystemExit c) => c
  | inl _ => 1
  end.

Definition is_write (e : event) : bool :=
  match e with EvWrite _ _ => true | _ => false end.

(** A read that stays inside the file. *)
Definition read_in_bounds (size : Z) (e : event) : Prop :=
  match e with
  | EvRead pos n => 0 <= pos /\ 0 <= n /\ pos + n <= size
  | _ => True
  end.

(** An uncaught exception other than [sys.exit]: the interpreter stops
    with a traceback. *)
Definition crashed {A} (r : res A) : bool :=
  match r with
  | inl (SystemExit _) => false
  | inl _ => true
  | inr _ => false
  end.

(** The container of the round-trip property: header bytes, the
    4-byte little-endian encoding of their length, the magic string. *)
Definition byte_of (z : Z) : byte :=
  match Byte.of_N (Z.to_N z) with
  | Some b => b
  | None => x00
  end.

Definition littleEndianLen4 (n : Z) : list byte :=
  [byte_of (n mod 256); byte_of ((n / 2 ^ 8) mod 256);
   byte_of ((n / 2 ^ 16) mod 256); byte_of ((n / 2 ^ 24) mod 256)].

(** ** Notions used in the statements *)

(** What is left of [ptd_reader] once the magic string and the length
    field have been read. *)
Definition read_block (T : Type) (read_file : list byte -> res T)
  (contents : list byte) (offset : Z) : io T :=
  (seek_end contents (- offset - MAGIC_STR_LEN - calcsize_i) ;;
   dcm_buf <- read contents offset ;;
   io_lift (read_file dcm_buf))%io.

(** A loop that stores [f k v] under each key [k] of a list of pairs. *)
Definition store_loop (f : string -> value -> option pyval)
  (l : list (string * value)) (d : dict) : dict :=
  fold_left (fun h '(k, v) => store k (f k v) h) l d.

(** What the pass of [parse_header] over one tag leaves under that tag
    in an empty header. *)
Definition stored_by_tag (tag : string) (v : value) : option pyval :=
  match parse_tag [] tag v with
  | inr h => dict_get tag h
  | inl _ => None
  end.

(** [overrides a b d0]: [a] is [d0] with the entries of [b] put on top. *)
Definition overrides (a b d0 : dict) : Prop :=
  forall k, dict_get k a
            = match dict_get k b with
              | Some v => Some v
              | None => dict_get k d0
              end.

(** A str of 10,241 characters: the digit 7 and 10,240 spaces. *)
Definition long_text : string :=
  String "7" (string_of_list_ascii (repeat " "%char (Z.to_nat 10240))).

(** [mentions k v]: [k] is a key of the mapping [v] or of a mapping
    nested in it, at any depth. *)
Inductive mentions (k : string) : pyval -> Prop :=
| mentions_key (d : dict) :
    In k (dict_keys d) -> mentions k (PDict d)
| mentions_nested (d : dict) (k' : string) (v : pyval) :
    In (k', v) d -> mentions k v -> mentions k (PDict d)
| mentions_element (xs : list pyval) (v : pyval) :
    In v xs -> mentions k v -> mentions k (PList xs).

(** [clean ignore_keys d]: no ignored key is a key of [d] or of a
    mapping nested in [d]. *)
Definition clean (ignore_keys : list string) (d : dict) : Prop :=
  forall k, mem k ignore_keys = true -> ~ mentions k (PDict d).

(** What [seq_item] stores is never under an ignored key and mentions
    none. *)
Definition item_clean (ignore_keys : list string) (v : value) : Prop :=
  forall s_key x,
    seq_item ignore_keys s_key v = inr (Some x) ->
    mem s_key ignore_keys = false /\
    forall k, mem k ignore_keys = true -> ~ mentions k x.

(** The value of a string of decimal digits read after [acc]. *)
Fixpoint uint_val (acc : Z) (d : Decimal.uint) : Z :=
  match d with
  | Decimal.Nil => acc
  | Decimal.D0 l => uint_val (10 * acc + 0) l
  | Decimal.D1 l => uint_val (10 * acc + 1) l
  | Decimal.D2 l => uint_val (10 * acc + 2) l
  | Decimal.D3 l => uint_val (10 * acc + 3) l
  | Decimal.D4 l => uint_val (10 * acc + 4) l
  | Decimal.D5 l => uint_val (10 * acc + 5) l
  | Decimal.D6 l => uint_val (10 * acc + 6) l
  | Decimal.D7 l => uint_val (10 * acc + 7) l
  | Decimal.D8 l => uint_val (10 * acc + 8) l
  | Decimal.D9 l => uint_val (10 * acc + 9) l
  end.

Definition uint_chars (d : Decimal.uint) : list ascii :=
  list_ascii_of_string (NilEmpty.string_of_uint d).

(** The three kinds of element of a normalised list. *)
Definition is_int_val (v : pyval) : bool :=
  match v with PInt _ => true | _ => false end.

Definition is_float_val (v : pyval) : bool :=
  match v with PFloat _ => true | _ => false end.

Definition is_text_val (v : pyval) : bool :=
  match v with PStr _ | PNone => true | _ => false end.

(** The characters of a str. *)
Definition chars (s : string) : list ascii := list_ascii_of_string s.

(** The entries that the loop of [get_seq_data] does not skip at once:
    not UID-typed and not under an ignored key. *)
Definition visited (ignore_keys : list string) (kv : string * value) : bool :=
  match snd kv with
  | Plain p => negb (is_uid p || mem (fst kv) ignore_keys)
  | Sequence _ => negb (mem (fst kv) ignore_keys)
  end.

(** The document that the script writes for a flattened header. *)
Definition metadata_document (cfg : config) (ptd_header : dict) : pyval :=
  PDict [(hierarchy_level cfg,
          PDict [("files",
                  PList [PDict [("name", PStr (ptd_name cfg));
                                ("info", PDict [("dicom", PDict ptd_header)]);
                                ("modality", PStr "PT")]])])].

(** The writes of a trace. *)
Definition writes (t : list event) : list event := filter is_write t.

(** A computation that writes no document. *)
Definition quiet {A} (m : io A) : Prop :=
  forall w, writes (trace (snd (m w))) = writes (trace w).

(** * Properties *)

(** ** Lists and bytes *)

Lemma skipn_length_app {A} (a b : list A) : skipn (List.length a) (a ++ b) = b.
Proof. induction a as [|x a IH]; simpl; auto. Qed.

Lemma firstn_length_app {A} (a b : list A) : firstn (List.length a) (a ++ b) = a.
Proof. induction a as [|x a IH]; simpl; f_equal; auto. Qed.

Lemma bytes_eqb_refl (a : list byte) : bytes_eqb a a = true.
Proof. unfold bytes_eqb. destruct (list_eq_dec _ a a); congruence. Qed.


Lemma MAGIC_STR_LEN_20 : MAGIC_STR_LEN = 20.
Proof. reflexivity. Qed.

Lemma byte_val_byte_of (z : Z) : 0 <= z < 256 -> byte_val (byte_of z) = z.
Proof.
  intros Hz. unfold byte_val, byte_of.
  destruct (Byte.of_N (Z.to_N z)) as [b|] eqn:E.
  - apply Byte.to_of_N in E. rewrite E. lia.
  - apply Byte.of_N_None_iff in E. lia.
Qed.

Lemma unpack_i_little_len4 (n : Z) :
  0 <= n < 2 ^ 31 -> unpack_i little (littleEndianLen4 n) = inr n.
Proof.
  intros Hn. unfold unpack_i, littleEndianLen4.
  rewrite !byte_val_byte_of by (apply Z.mod_pos_bound; lia).
  assert (E : n mod 256 + 2 ^ 8 * ((n / 2 ^ 8) mod 256)
              + 2 ^ 16 * ((n / 2 ^ 16) mod 256)
              + 2 ^ 24 * ((n / 2 ^ 24) mod 256) = n).
  { change (2 ^ 8) with 256. change (2 ^ 16) with (256 * 256).
    change (2 ^ 24) with (256 * 256 * 256).
    change (2 ^ 31) with 2147483648 in Hn.
    rewrite <- !Z.div_div by lia.
    assert (n / 256 / 256 / 256 < 256) by
      (repeat (apply Z.div_lt_upper_bound; [lia|]); lia).
    rewrite (Z.mod_small (n / 256 / 256 / 256)) by
      (split; [repeat apply Z.div_pos; lia | lia]).
    pose proof (Z.div_mod n 256 ltac:(lia)).
    pose proof (Z.div_mod (n / 256) 256 ltac:(lia)).
    pose proof (Z.div_mod (n / 256 / 256) 256 ltac:(lia)).
    lia. }
  rewrite E. unfold ret.
  destruct (2 ^ 31 <=? n) eqn:L; [apply Z.leb_le in L; lia | reflexivity].
Qed.

(** ** The file handle *)

Section HandleFacts.

Variable contents : list byte.

Lemma seek_end_ok (off : Z) (w : world) :
  0 <= Z.of_nat (List.length contents) + off ->
  seek_end contents off w
  = (inr tt, mkWorld (Z.of_nat (List.length contents) + off) (trace w)).
Proof.
  intros H. unfold seek_end.
  destruct (_ <? 0) eqn:E; [apply Z.ltb_lt in E; lia | reflexivity].
Qed.

Lemma seek_end_before_start (off : Z) (w : world) :
  Z.of_nat (List.length contents) + off < 0 ->
  seek_end contents off w = (inl OSError, w).
Proof.
  intros H. unfold seek_end.
  destruct (_ <? 0) eqn:E; [reflexivity | apply Z.ltb_ge in E; lia].
Qed.

End HandleFacts.

(** Reading the middle part of a file whose handle stands at its start. *)
Lemma read_part (a b c : list byte) (w : world) :
  fpos w = Z.of_nat (List.length a) ->
  read (a ++ b ++ c) (Z.of_nat (List.length b)) w
  = (inr b, mkWorld (Z.of_nat (List.length a) + Z.of_nat (List.length b))
                    (trace w ++ [EvRead (Z.of_nat (List.length a))
                                        (Z.of_nat (List.length b))])).
Proof.
  intros Hp. unfold read. rewrite Hp.
  destruct (_ <? -1) eqn:E1; [apply Z.ltb_lt in E1; lia|].
  destruct (_ =? -1) eqn:E2; [apply Z.eqb_eq in E2; lia|].
  rewrite !Nat2Z.id, skipn_length_app, firstn_length_app. reflexivity.
Qed.

Lemma unpack_i_length (bo : byteorder) (b : list byte) (n : Z) :
  unpack_i bo b = inr n -> List.length b = 4%nat.
Proof.
  destruct b as [|b0 [|b1 [|b2 [|b3 [|b4 r]]]]]; intros H;
    unfold unpack_i in H; try discriminate H; reflexivity.
Qed.

Lemma unpack_i_range (bo : byteorder) (b : list byte) (n : Z) :
  unpack_i bo b = inr n -> - 2 ^ 31 <= n < 2 ^ 31.
Proof.
  destruct b as [|b0 [|b1 [|b2 [|b3 [|b4 r]]]]]; intros H;
    unfold unpack_i in H; try discriminate H.
  assert (B : forall x, 0 <= byte_val x <= 255).
  { intros x. unfold byte_val. pose proof (Byte.to_N_bounded x). lia. }
  pose proof (B b0); pose proof (B b1); pose proof (B b2); pose proof (B b3).
  assert (E : forall x y : Z, @inr exn Z x = inr y -> x = y) by (intros; congruence).
  apply E in H. subst n.
  change (2 ^ 8) with 256. change (2 ^ 16) with 65536.
  change (2 ^ 24) with 16777216. change (2 ^ 31) with 2147483648.
  change (2 ^ 32) with 4294967296.
  destruct bo;
    match goal with |- context [?a <=? ?b] => destruct (a <=? b) eqn:L end;
    [apply Z.leb_le in L | apply Z.leb_gt in L
     |apply Z.leb_le in L | apply Z.leb_gt in L]; lia.
Qed.

(** ** TrailerLocator *)

Section ReaderFacts.

Variable host : byteorder.
Variable T : Type.
Variable read_file : list byte -> res T.

(** On a file that ends with a length field and the magic string, the
    reader checks the magic string, reads the field and goes on to the
    header block. *)
Lemma ptd_reader_trailer (pre field : list byte) (offset : Z) (w : world) :
  unpack_i host field = inr offset ->
  ptd_reader host T read_file (pre ++ field ++ MAGIC_STR) w
  = read_block T read_file (pre ++ field ++ MAGIC_STR) offset
      (mkWorld (Z.of_nat (List.length pre) + 4)
         (trace w ++ [EvRead (Z.of_nat (List.length pre) + 4) 20;
                      EvRead (Z.of_nat (List.length pre)) 4])).
Proof.
  intros Hu. pose proof (unpack_i_length _ _ _ Hu) as Hf.
  set (file := (pre ++ field ++ MAGIC_STR)%list).
  assert (Hlen : Z.of_nat (List.length file) = Z.of_nat (List.length pre) + 24).
  { unfold file. rewrite !length_app, Hf. change (List.length MAGIC_STR) with 20%nat. lia. }
  unfold ptd_reader, io_bind at 1.
  rewrite seek_end_ok by (rewrite Hlen, MAGIC_STR_LEN_20; lia).
  unfold io_bind at 1.
  assert (R1 : forall w1, fpos w1 = Z.of_nat (List.length pre) + 4 ->
             read file MAGIC_STR_LEN w1
             = (inr MAGIC_STR,
                mkWorld (Z.of_nat (List.length pre) + 24)
                        (trace w1 ++ [EvRead (Z.of_nat (List.length pre) + 4) 20]))).
  { intros w1 Hp.
    replace file with ((pre ++ field) ++ MAGIC_STR ++ [])%list by
      (unfold file; rewrite app_nil_r, app_assoc; reflexivity).
    unfold MAGIC_STR_LEN. rewrite read_part by (rewrite Hp, length_app, Hf; lia).
    rewrite length_app, Hf. change (List.length MAGIC_STR) with 20%nat.
    replace (Z.of_nat (List.length pre + 4)) with (Z.of_nat (List.length pre) + 4) by lia.
    change (Z.of_nat 20) with 20.
    replace (Z.of_nat (List.length pre) + 4 + 20)
      with (Z.of_nat (List.length pre) + 24) by lia.
    reflexivity. }
  rewrite R1 by (cbn [fpos]; rewrite Hlen, MAGIC_STR_LEN_20; lia).
  unfold io_bind at 1. rewrite bytes_eqb_refl. cbn [negb].
  unfold io_bind at 1, io_ret at 1.
  rewrite seek_end_ok by (rewrite Hlen, MAGIC_STR_LEN_20; unfold calcsize_i; lia).
  unfold io_bind at 1.
  assert (R2 : forall w1, fpos w1 = Z.of_nat (List.length pre) ->
             read file calcsize_i w1
             = (inr field,
                mkWorld (Z.of_nat (List.length pre) + 4)
                        (trace w1 ++ [EvRead (Z.of_nat (List.length pre)) 4]))).
  { intros w1 Hp. unfold file.
    replace calcsize_i with (Z.of_nat (List.length field)) by (rewrite Hf; reflexivity).
    rewrite read_part by exact Hp. rewrite Hf. reflexivity. }
  rewrite R2 by (cbn [fpos]; rewrite Hlen, MAGIC_STR_LEN_20; unfold calcsize_i; lia).
  unfold io_bind at 1, io_lift at 1. rewrite Hu.
  cbn [trace]. rewrite <- app_assoc. reflexivity.
Qed.


End ReaderFacts.

(** The script passes on what the reader raises, and then writes nothing. *)
Lemma main_reader_raises (host : byteorder) (read_file : list byte -> res dataset)
  (cfg : config) (contents : list byte) (e : exn) (w w' : world) :
  endswith (ptd_file cfg) ".ptd" = true ->
  ptd_reader host dataset read_file contents w = (inl e, w') ->
  main host read_file cfg contents w = (inl e, w').
Proof.
  intros Hext Hr. unfold main. rewrite Hext. unfold io_bind. rewrite Hr. reflexivity.
Qed.

(** A file shorter than the magic string: the first seek is refused. *)
Lemma ptd_reader_short_file (host : byteorder) (T : Type)
  (read_file : list byte -> res T) (contents : list byte) (w : world) :
  (List.length contents < 20)%nat ->
  ptd_reader host T read_file contents w = (inl OSError, w).
Proof.
  intros Hlen. unfold ptd_reader, io_bind at 1.
  rewrite seek_end_before_start by (rewrite MAGIC_STR_LEN_20; lia).
  reflexivity.
Qed.


(** C4. Round-trip location: in a buffer made of header bytes (fewer than
    2^31 of them, so that the length fits the signed field), their
    4-byte little-endian length and the magic string, the reader on a
    little-endian host hands exactly the header bytes to the decoder,
    after three reads: the magic string, the length field, the block. *)
Theorem ptd_reader_round_trip (T : Type) (read_file : list byte -> res T)
  (header_bytes : list byte) :
  Z.of_nat (List.length header_bytes) < 2 ^ 31 ->
  let n := Z.of_nat (List.length header_bytes) in
  ptd_reader little T read_file
    (header_bytes ++ littleEndianLen4 n ++ MAGIC_STR) initial_world
  = (read_file header_bytes,
     mkWorld n [EvRead (n + 4) 20; EvRead n 4; EvRead 0 n]).
Proof.
  intros Hn n.
  rewrite (ptd_reader_trailer little T read_file header_bytes _ n)
    by (apply unpack_i_little_len4; lia).
  set (file := (header_bytes ++ littleEndianLen4 n ++ MAGIC_STR)%list).
  assert (Hlen : Z.of_nat (List.length file) = n + 24).
  { unfold file. rewrite !length_app. change (List.length MAGIC_STR) with 20%nat.
    change (List.length (littleEndianLen4 n)) with 4%nat. lia. }
  unfold read_block, io_bind at 1.
  rewrite seek_end_ok by (rewrite Hlen, MAGIC_STR_LEN_20; unfold calcsize_i; lia).
  unfold io_bind, io_lift.
  pose proof (read_part [] header_bytes (littleEndianLen4 n ++ MAGIC_STR)) as R.
  cbn [app List.length] in R. fold n file in R.
  rewrite R by (cbn [fpos]; rewrite Hlen, MAGIC_STR_LEN_20; unfold calcsize_i; lia).
  cbn [trace initial_world app]. reflexivity.
Qed.

Lemma ptd_reader_round_trip_witness :
  Z.of_nat (List.length [x68; x69]) < 2 ^ 31 /\
  ptd_reader little (list byte) ret
    ([x68; x69] ++ littleEndianLen4 2 ++ MAGIC_STR) initial_world
  = (inr [x68; x69], mkWorld 2 [EvRead 6 20; EvRead 2 4; EvRead 0 2]).
Proof.
  split; [reflexivity|].
  apply (ptd_reader_round_trip (list byte) ret [x68; x69]). reflexivity.
Defined.

(** The byte order is the host's: on a big-endian host the length field
    01 00 00 00 of a one-byte header is taken for 16,777,216, and the
    same container is not read back. *)
Lemma ptd_reader_big_endian_host :
  unpack_i big (littleEndianLen4 1) = inr 16777216 /\
  fst (ptd_reader big (list byte) ret
         ([x68] ++ littleEndianLen4 1 ++ MAGIC_STR) initial_world)
  = inl OSError.
Proof. split; reflexivity. Qed.

(** C3. Truncation safety: when the file ends with the magic string and
    its length field holds more than the number of bytes in front of the
    field, the reader fails: the seek to the start of the block is
    refused with OSError, which nothing catches.  Every read made up to
    then lies inside the file, and the script ends with a non-zero
    status without writing the output document. *)
Theorem ptd_reader_truncated (host : byteorder) (read_file : list byte -> res dataset)
  (cfg : config) (pre field : list byte) (offset : Z) :
  unpack_i host field = inr offset ->
  Z.of_nat (List.length pre) < offset ->
  endswith (ptd_file cfg) ".ptd" = true ->
  let file := (pre ++ field ++ MAGIC_STR)%list in
  let r := ptd_reader host dataset read_file file initial_world in
  let run := main host read_file cfg file initial_world in
  fst r = inl OSError /\
  Forall (read_in_bounds (Z.of_nat (List.length file))) (trace (snd r)) /\
  fst run = inl OSError /\
  exit_status (fst run) <> 0 /\
  existsb is_write (trace (snd run)) = false.
Proof.
  intros Hu Hoff Hext file r run.
  pose proof (unpack_i_length _ _ _ Hu) as Hf.
  assert (Hlen : Z.of_nat (List.length file) = Z.of_nat (List.length pre) + 24).
  { unfold file. rewrite !length_app, Hf. change (List.length MAGIC_STR) with 20%nat. lia. }
  assert (Hr : r = (inl OSError,
                    mkWorld (Z.of_nat (List.length pre) + 4)
                      [EvRead (Z.of_nat (List.length pre) + 4) 20;
                       EvRead (Z.of_nat (List.length pre)) 4])).
  { unfold r, file. rewrite (ptd_reader_trailer _ _ _ _ _ offset) by exact Hu.
    unfold read_block, io_bind at 1.
    rewrite seek_end_before_start
      by (fold file; rewrite Hlen, MAGIC_STR_LEN_20; unfold calcsize_i; lia).
    reflexivity. }
  assert (Hrun : run = (inl OSError, snd r)).
  { unfold run. apply main_reader_raises; [exact Hext|].
    fold r. rewrite Hr. reflexivity. }
  rewrite Hrun, Hr. cbn [fst snd trace exit_status existsb is_write orb].
  repeat split; try discriminate.
  repeat constructor; cbn [read_in_bounds]; lia.
Qed.

Lemma ptd_reader_truncated_witness :
  let cfg := mkConfig "scan.ptd" "scan.ptd" "acquisition" "" in
  let file := ([x68; x69] ++ [x03; x00; x00; x00] ++ MAGIC_STR)%list in
  unpack_i little [x03; x00; x00; x00] = inr 3 /\
  Z.of_nat (List.length [x68; x69]) < 3 /\
  endswith (ptd_file cfg) ".ptd" = true /\
  fst (ptd_reader little dataset (fun _ => ret []) file initial_world) = inl OSError /\
  Forall (read_in_bounds (Z.of_nat (List.length file)))
    (trace (snd (ptd_reader little dataset (fun _ => ret []) file initial_world))) /\
  fst (main little (fun _ => ret []) cfg file initial_world) = inl OSError /\
  exit_status (fst (main little (fun _ => ret []) cfg file initial_world)) <> 0 /\
  existsb is_write (trace (snd (main little (fun _ => ret []) cfg file initial_world)))
  = false.
Proof.
  intros cfg file.
  split; [reflexivity|]. split; [reflexivity|]. split; [reflexivity|].
  apply (ptd_reader_truncated little (fun _ => ret []) cfg
           [x68; x69] [x03; x00; x00; x00] 3); reflexivity.
Defined.

(** C9 fails on a file shorter than the magic string.  A three-byte file
    named [scan.ptd] does not end with the magic string, yet the script
    does not reach its error message and [sys.exit(1)]: the first seek
    raises OSError, which nothing catches, and nothing is printed. *)
Theorem main_short_file_crashes :
  let cfg := mkConfig "scan.ptd" "scan.ptd" "acquisition" "" in
  let contents := [x61; x62; x63] in
  forall (host : byteorder) (read_file : list byte -> res dataset),
    skipn (List.length contents - 20) contents <> MAGIC_STR /\
    main host read_file cfg contents initial_world = (inl OSError, initial_world) /\
    crashed (fst (main host read_file cfg contents initial_world)) = true.
Proof.
  intros cfg contents host read_file.
  assert (M : main host read_file cfg contents initial_world
              = (inl OSError, initial_world)).
  { apply main_reader_raises; [reflexivity|].
    apply ptd_reader_short_file. cbn. lia. }
  rewrite M. repeat split. discriminate.
Qed.

(** ** Dictionaries *)

Lemma dict_get_set_same (k : string) (v : pyval) (d : dict) :
  dict_get k (dict_set k v d) = Some v.
Proof.
  induction d as [|[k' v'] d IH]; simpl.
  - rewrite String.eqb_refl. reflexivity.
  - destruct (String.eqb k k') eqn:E; simpl.
    + rewrite String.eqb_refl. reflexivity.
    + rewrite E. exact IH.
Qed.

Lemma dict_get_set_other (k k' : string) (v : pyval) (d : dict) :
  k <> k' -> dict_get k' (dict_set k v d) = dict_get k' d.
Proof.
  intros Hne. induction d as [|[k0 v0] d IH]; simpl.
  - destruct (String.eqb_spec k' k); [congruence | reflexivity].
  - destruct (String.eqb_spec k k0) as [->|Hk]; simpl.
    + destruct (String.eqb_spec k' k0); [congruence | reflexivity].
    + destruct (String.eqb_spec k' k0); [reflexivity | exact IH].
Qed.

(** What [d.get(k)] is after the body of a loop stored [o] under [k0]. *)
Lemma dict_get_store (k k0 : string) (o : option pyval) (d : dict) :
  dict_get k (store k0 o d)
  = if String.eqb k k0 then match o with Some v => Some v | None => dict_get k d end
    else dict_get k d.
Proof.
  destruct o as [v|]; simpl.
  - destruct (String.eqb_spec k k0) as [->|Hne].
    + apply dict_get_set_same.
    + apply dict_get_set_other. congruence.
  - destruct (String.eqb k k0); reflexivity.
Qed.

Section StoreLoop.

Variable f : string -> value -> option pyval.

Lemma store_loop_notin (k : string) (l : list (string * value)) (d : dict) :
  ~ In k (map fst l) -> dict_get k (store_loop f l d) = dict_get k d.
Proof.
  revert d. induction l as [|[k1 v1] l IH]; intros d Hn; simpl in *.
  - reflexivity.
  - unfold store_loop in *. simpl. rewrite IH by tauto.
    rewrite dict_get_store.
    destruct (String.eqb_spec k k1); [subst; tauto | reflexivity].
Qed.

Lemma store_loop_in (k : string) (v : value) (l : list (string * value)) (d : dict) :
  NoDup (map fst l) -> In (k, v) l ->
  dict_get k (store_loop f l d)
  = match f k v with Some x => Some x | None => dict_get k d end.
Proof.
  revert d. induction l as [|[k1 v1] l IH]; intros d Hnd Hin; simpl in *.
  - contradiction.
  - inversion Hnd as [|? ? Hk1 Hnd']; subst.
    unfold store_loop in *. simpl.
    destruct Hin as [E|Hin].
    + inversion E; subst.
      pose proof (store_loop_notin k l (store k (f k v) d) Hk1) as N.
      unfold store_loop in N. rewrite N.
      rewrite dict_get_store, String.eqb_refl. reflexivity.
    + rewrite IH by assumption.
      rewrite dict_get_store.
      destruct (String.eqb_spec k k1) as [->|Hne]; [|reflexivity].
      exfalso. apply Hk1. apply (in_map fst) in Hin. exact Hin.
Qed.

End StoreLoop.

(** ** ValueNormalizer *)

Lemma py_int_raises (s : string) (e : exn) : py_int s = inl e -> e = ValueError.
Proof.
  unfold py_int. destruct (split_sign _) as [neg body].
  destruct (digits_us body); unfold ret, raise; congruence.
Qed.

Lemma py_float_raises (s : string) (e : exn) : py_float s = inl e -> e = ValueError.
Proof.
  unfold py_float. destruct (remove_underscores _ _) as [l|]; [|unfold raise; congruence].
  destruct (split_sign l) as [neg body].
  destruct (is_word "inf" body || is_word "infinity" body); [unfold ret; congruence|].
  destruct (is_word "nan" body); [unfold ret; congruence|].
  destruct (parse_decimal neg body); unfold ret, raise; congruence.
Qed.

(** [format_string] returns None or a non-empty string. *)
Lemma format_string_cases (s : string) :
  format_string s = PNone \/
  exists t, format_string s = PStr t /\ t <> "" /\ t <> "?".
Proof.
  unfold format_string.
  set (t := sfilter printable (sfilter is_ascii s)).
  destruct t as [|c t'] eqn:E; [left; reflexivity|].
  destruct (String.eqb_spec (String c t') "?") as [Eq|Hne].
  - left. rewrite Eq. reflexivity.
  - rewrite Bool.andb_false_r. cbn [String.length Nat.eqb orb].
    right. exists (String c t'). repeat split; congruence.
Qed.

Lemma kept_format_string (s : string) :
  kept (format_string s)
  = match format_string s with PNone => None | v => Some v end.
Proof.
  destruct (format_string_cases s) as [E|[t [E [Hne _]]]]; rewrite E; [reflexivity|].
  unfold kept, truthy. destruct t; [congruence | reflexivity].
Qed.

(** The numeric pipeline of the scalar branch, on the text of the value. *)
Lemma assign_type_scalar (p : plain) :
  match p with VPersonName _ | VMulti _ => False | _ => True end ->
  assign_type p
  = match py_int (py_str p) with
    | inr n => inr (PInt n)
    | inl _ =>
        match py_float (py_str p) with
        | inr f => inr (PFloat f)
        | inl _ => inr (format_string (py_str p))
        end
    end.
Proof.
  intros Hp.
  assert (E : assign_type p
              = except_ValueError
                  (n <- py_int (py_str p) ;; ret (PInt n))%res
                  (except_ValueError
                     (f <- py_float (py_str p) ;; ret (PFloat f))%res
                     (ret (format_string (py_str p))))).
  { destruct p; try contradiction; reflexivity. }
  rewrite E. clear E Hp.
  destruct (py_int (py_str p)) as [e|n] eqn:Ei; [|reflexivity].
  apply py_int_raises in Ei. subst e. cbn [bind except_ValueError].
  destruct (py_float (py_str p)) as [e|f] eqn:Ef; [|reflexivity].
  apply py_float_raises in Ef. subst e. reflexivity.
Qed.

(** C5. Numeric precedence: on a plain scalar the normaliser tries the
    integer parse of its text, then the float parse, then sanitises the
    text; so "42" gives the integer 42, "4.5" the float 4.5, "abc" the
    string "abc", and "?" gives None, which is not kept. *)
Theorem assign_type_numeric_precedence :
  (forall s : string,
     assign_type (VStr s)
     = match py_int s with
       | inr n => inr (PInt n)
       | inl _ =>
           match py_float s with
           | inr f => inr (PFloat f)
           | inl _ => inr (format_string s)
           end
       end) /\
  assign_type (VStr "42") = inr (PInt 42) /\
  assign_type (VStr "4.5") = inr (PFloat (FDec false 45 (-1))) /\
  assign_type (VStr "abc") = inr (PStr "abc") /\
  assign_type (VStr "?") = inr PNone /\
  kept PNone = None.
Proof.
  split; [|repeat split].
  intros s. apply (assign_type_scalar (VStr s)). exact I.
Qed.

Lemma mapM_elem_int_raises (xs : list elem) (e : exn) :
  mapM elem_int xs = inl e -> e = ValueError.
Proof.
  induction xs as [|x xs IH]; simpl; [discriminate|].
  destruct (elem_int x) as [e1|n] eqn:E1; simpl.
  - intros H. injection H as <-. destruct x; simpl in E1.
    + apply py_int_raises in E1. exact E1.
    + discriminate.
  - destruct (mapM elem_int xs) as [e2|l]; simpl; [|discriminate].
    intros H. injection H as <-. apply IH. reflexivity.
Qed.

(** The three passes over a list: the first one that succeeds on every
    element decides the type of all the elements of the result. *)
Lemma assign_type_list (xs : list elem) :
  assign_type (VMulti xs)
  = match mapM elem_int xs with
    | inr l => inr (PList (map PInt l))
    | inl _ =>
        match mapM elem_float xs with
        | inr l => inr (PList (map PFloat l))
        | inl ValueError =>
            match format_nonempty xs with
            | inr l => inr (PList l)
            | inl e => inl e
            end
        | inl e => inl e
        end
    end.
Proof.
  cbn [assign_type].
  destruct (mapM elem_int xs) as [e|l] eqn:Ei; [|reflexivity].
  apply mapM_elem_int_raises in Ei. subst e. cbn [bind except_ValueError].
  destruct (mapM elem_float xs) as [e|l]; [|reflexivity].
  cbn [bind except_ValueError].
  destruct e; reflexivity.
Qed.

(** The string pass drops the elements of length zero and no others. *)
Lemma format_nonempty_strings (ss : list string) :
  format_nonempty (map EStr ss)
  = inr (map format_string
           (filter (fun s => negb (String.length s =? 0)%nat) ss)).
Proof.
  induction ss as [|s ss IH]; [reflexivity|].
  cbn [map format_nonempty elem_len elem_str bind ret filter].
  rewrite IH. cbn [bind ret].
  destruct (String.length s) as [|n]; reflexivity.
Qed.

(** C6 fails on a list with an element that is not empty but sanitises
    to nothing.  The claim's own example normalises as it says, to the
    string list ["1"; "2"; "x"]; the list ["x"; "?"] normalises to
    ["x"; None]: the filter of the string pass tests the length of the
    raw element, so a None entry remains in the list. *)
Theorem assign_type_list_keeps_none :
  assign_type (VMulti [EStr "1"; EStr "2"; EStr "x"])
  = inr (PList [PStr "1"; PStr "2"; PStr "x"]) /\
  format_string "?" = PNone /\
  assign_type (VMulti [EStr "x"; EStr "?"]) = inr (PList [PStr "x"; PNone]) /\
  parse_header [("ImageType", Plain (VMulti [EStr "x"; EStr "?"]))]
  = [("ImageType", PList [PStr "x"; PNone])].
Proof.
  repeat split.
Qed.

(** ** HeaderFlattener *)

Lemma parse_tag_store (header : dict) (tag : string) (v : value) :
  match parse_tag header tag v with
  | inr header' => header'
  | inl _ => header
  end = store tag (stored_by_tag tag v) header.
Proof.
  unfold stored_by_tag, parse_tag.
  destruct v as [p|groups].
  - match goal with |- context [bind ?m _] => destruct m as [e|formatted] end;
      cbn [bind]; [reflexivity|].
    destruct (truthy formatted); cbn [ret store dict_get]; [|reflexivity].
    rewrite dict_get_set_same. reflexivity.
  - cbn [bind ret truthy].
    destruct (get_seq_data groups exclude_tags) as [e|seq_data]; cbn [bind ret];
      [reflexivity|].
    destruct seq_data as [|x d]; cbn [store dict_get]; [reflexivity|].
    rewrite dict_get_set_same. reflexivity.
Qed.

Lemma parse_header_store_loop (ptd : dataset) :
  parse_header ptd = store_loop stored_by_tag ptd [].
Proof.
  unfold parse_header, store_loop. generalize (@nil (string * pyval)).
  induction ptd as [|[tag v] ptd IH]; intros h; [reflexivity|].
  cbn [fold_left]. rewrite parse_tag_store. apply IH.
Qed.

(** The entry of a tag in the flattened header depends on that tag's
    value alone. *)
Lemma parse_header_lookup (ptd : dataset) (tag : string) (v : value) :
  NoDup (map fst ptd) -> In (tag, v) ptd ->
  dict_get tag (parse_header ptd) = stored_by_tag tag v.
Proof.
  intros Hnd Hin. rewrite parse_header_store_loop.
  rewrite (store_loop_in _ tag v) by assumption.
  destruct (stored_by_tag tag v); reflexivity.
Qed.

Lemma parse_header_absent (ptd : dataset) (tag : string) :
  ~ In tag (map fst ptd) -> dict_get tag (parse_header ptd) = None.
Proof.
  intros Hn. rewrite parse_header_store_loop, store_loop_notin by exact Hn.
  reflexivity.
Qed.

Lemma stored_by_tag_string (tag s : string) :
  mem tag exclude_tags = false ->
  stored_by_tag tag (Plain (VStr s))
  = if Z.of_nat (String.length s) <? 10240 then kept (format_string s)
    else match assign_type (VStr s) with
         | inr v => kept v
         | inl _ => None
         end.
Proof.
  intros Hm. unfold stored_by_tag, parse_tag. rewrite Hm. cbn [negb has_value].
  destruct s as [|c s'].
  - reflexivity.
  - cbn [String.length Nat.eqb negb].
    destruct (Z.of_nat (S (String.length s')) <? 10240).
    + cbn [bind ret]. unfold kept.
      destruct (truthy (format_string (String c s'))); cbn [dict_get]; [|reflexivity].
      rewrite dict_get_set_same. reflexivity.
    + destruct (assign_type (VStr (String c s'))) as [e|v]; cbn [bind ret];
        [reflexivity|].
      unfold kept. destruct (truthy v); cbn [dict_get]; [|reflexivity].
      rewrite dict_get_set_same. reflexivity.
Qed.

Lemma stored_by_tag_excluded (tag : string) (p : plain) :
  mem tag exclude_tags = true -> stored_by_tag tag (Plain p) = None.
Proof.
  intros Hm. unfold stored_by_tag, parse_tag. rewrite Hm. reflexivity.
Qed.

(** A value that is not a str and not a sequence, under a tag outside
    the exclude list: [assign_type] decides, and a falsy result is left
    out. *)
Lemma stored_by_tag_other (tag : string) (p : plain) :
  mem tag exclude_tags = false ->
  match p with VStr _ => False | _ => True end ->
  stored_by_tag tag (Plain p)
  = if has_value p
    then match assign_type p with inr v => kept v | inl _ => None end
    else None.
Proof.
  intros Hm Hp. unfold stored_by_tag, parse_tag. rewrite Hm. cbn [negb].
  destruct (has_value p); [|reflexivity].
  assert (E : match p with
              | VStr s => if Z.of_nat (String.length s) <? 10240
                          then ret (format_string s) else assign_type p
              | _ => assign_type p
              end = assign_type p) by (destruct p; try contradiction; reflexivity).
  rewrite E. destruct (assign_type p) as [e|v]; cbn [bind ret]; [reflexivity|].
  unfold kept. destruct (truthy v); cbn [dict_get]; [|reflexivity].
  rewrite dict_get_set_same. reflexivity.
Qed.

(** A sequence at the top level: its mapping is stored when it is not
    empty, whether the tag is excluded or not. *)
Lemma stored_by_tag_sequence (tag : string) (groups : list (list (string * value))) :
  stored_by_tag tag (Sequence groups)
  = match get_seq_data groups exclude_tags with
    | inr seq_data => kept (PDict seq_data)
    | inl _ => None
    end.
Proof.
  unfold stored_by_tag, parse_tag. cbn [bind ret truthy].
  destruct (get_seq_data groups exclude_tags) as [e|d]; cbn [bind ret]; [reflexivity|].
  destruct d as [|x d]; [reflexivity|].
  unfold kept. cbn [truthy dict_get]. rewrite dict_get_set_same. reflexivity.
Qed.

(** The other half of the length test: a str of 10,241 characters, a
    digit and spaces, is coerced to the integer. *)
Lemma parse_header_long_string_coerced :
  String.length long_text = Z.to_nat 10241 /\
  parse_header [("ImageComments", Plain (VStr long_text))]
  = [("ImageComments", PInt 7)].
Proof. split; vm_compute; reflexivity. Qed.

(** C1 as stated fails: it would have every string of at most 10,240
    characters go through numeric coercion.  The string "42" under the
    tag SeriesNumber is stored as the string "42", while the normaliser
    with coercion gives the integer 42. *)
Lemma parse_header_short_string_not_coerced :
  ~ (forall tag s : string,
       mem tag exclude_tags = false ->
       (10240 < Z.of_nat (String.length s) ->
        dict_get tag (parse_header [(tag, Plain (VStr s))])
        = kept (format_string s)) /\
       (Z.of_nat (String.length s) <= 10240 ->
        dict_get tag (parse_header [(tag, Plain (VStr s))])
        = match assign_type (VStr s) with
          | inr v => kept v
          | inl _ => None
          end)).
Proof.
  intros H.
  destruct (H "SeriesNumber" "42" eq_refl) as [_ H2].
  assert (L : Z.of_nat (String.length "42") <= 10240) by (cbn; lia).
  specialize (H2 L). cbv in H2. discriminate H2.
Qed.

(** C1, amended.  For a tag outside the exclude list whose value is a
    str: a string of fewer than 10,240 characters is only sanitised (it
    is stored as its sanitised text, or left out when that is None, and
    never becomes a number); a string of 10,240 characters or more is
    passed to [assign_type], with its numeric coercion, and what that
    returns is stored when it is truthy. *)
Theorem parse_header_string_tag (ptd : dataset) (tag s : string) :
  NoDup (map fst ptd) ->
  In (tag, Plain (VStr s)) ptd ->
  mem tag exclude_tags = false ->
  dict_get tag (parse_header ptd)
  = if Z.of_nat (String.length s) <? 10240
    then match format_string s with PNone => None | v => Some v end
    else match assign_type (VStr s) with
         | inr v => kept v
         | inl _ => None
         end.
Proof.
  intros Hnd Hin Hm.
  rewrite (parse_header_lookup ptd tag _ Hnd Hin), stored_by_tag_string by exact Hm.
  rewrite kept_format_string. reflexivity.
Qed.

Lemma parse_header_string_tag_witness :
  let ptd := [("SeriesNumber", Plain (VStr "42")); ("PatientID", Plain (VStr "?"))] in
  NoDup (map fst ptd) /\
  In ("SeriesNumber", Plain (VStr "42")) ptd /\
  mem "SeriesNumber" exclude_tags = false /\
  dict_get "SeriesNumber" (parse_header ptd) = Some (PStr "42").
Proof.
  intros ptd.
  assert (Hnd : NoDup (map fst ptd)).
  { repeat constructor; simpl; intuition discriminate. }
  assert (Hin : In ("SeriesNumber", Plain (VStr "42")) ptd) by (left; reflexivity).
  split; [exact Hnd|]. split; [exact Hin|]. split; [reflexivity|].
  exact (parse_header_string_tag ptd "SeriesNumber" "42" Hnd Hin eq_refl).
Defined.

(** C2 fails at the top level for a tag whose value is a sequence.  The
    loop of [get_seq_data] skips an excluded key whatever its value is;
    [parse_header] tests the exclude list only on the branch of the
    values that are not sequences.  So a sequence under the excluded tag
    PixelData is dropped inside a group and kept at the top level. *)
Theorem parse_header_keeps_excluded_sequence :
  let inner := Sequence [[("PatientID", Plain (VStr "x"))]] in
  mem "PixelData" exclude_tags = true /\
  parse_header [("PixelData", inner)]
  = [("PixelData", PDict [("PatientID", PStr "x")])] /\
  dict_get "PixelData" (parse_header [("PixelData", inner)])
  = Some (PDict [("PatientID", PStr "x")]) /\
  parse_header [("Frames", Sequence [[("PixelData", inner);
                                      ("Rows", Plain (VInt 2))]])]
  = [("Frames", PDict [("Rows", PInt 2)])].
Proof.
  repeat split.
Qed.

(** ** [int(str(n))] *)

Lemma uint_val_acc (d : Decimal.uint) (acc : positive) :
  Z.pos (Pos.of_uint_acc d acc) = uint_val (Z.pos acc) d.
Proof.
  revert acc. induction d; intros acc; cbn [Pos.of_uint_acc uint_val];
    [reflexivity | rewrite IHd; f_equal; lia ..].
Qed.

Lemma uint_val_of_uint (d : Decimal.uint) :
  Z.of_N (Pos.of_uint d) = uint_val 0 d.
Proof.
  induction d; cbn [Pos.of_uint uint_val]; try reflexivity; try exact IHd;
    cbn [Z.of_N]; rewrite uint_val_acc; reflexivity.
Qed.

Lemma digits_tail_uint (d : Decimal.uint) (acc : Z) :
  digits_tail acc false (uint_chars d) = Some (uint_val acc d).
Proof.
  revert acc. unfold uint_chars.
  induction d; intros acc; cbn [NilEmpty.string_of_uint list_ascii_of_string uint_val];
    [reflexivity | apply IHd ..].
Qed.

Lemma uint_chars_nonspace (d : Decimal.uint) :
  Forall (fun c => py_isspace c = false) (uint_chars d).
Proof.
  unfold uint_chars.
  induction d; cbn [NilEmpty.string_of_uint list_ascii_of_string];
    constructor; (reflexivity || assumption).
Qed.

Lemma lstrip_nonspace (l : list ascii) :
  Forall (fun c => py_isspace c = false) l -> lstrip l = l.
Proof. destruct 1 as [|c l Hc _]; simpl; [reflexivity | rewrite Hc; reflexivity]. Qed.

Lemma strip_nonspace (l : list ascii) :
  Forall (fun c => py_isspace c = false) l -> strip l = l.
Proof.
  intros H. unfold strip. rewrite (lstrip_nonspace l H).
  rewrite lstrip_nonspace by (apply Forall_rev; exact H).
  apply rev_involutive.
Qed.

Lemma digits_us_uint (d : Decimal.uint) :
  d <> Decimal.Nil -> digits_us (uint_chars d) = Some (uint_val 0 d).
Proof.
  intros Hd. rewrite <- digits_tail_uint.
  destruct d; try congruence; reflexivity.
Qed.

Lemma split_sign_uint (d : Decimal.uint) :
  split_sign (uint_chars d) = (false, uint_chars d).
Proof. destruct d; reflexivity. Qed.

Lemma string_of_uint_nonnil (d : Decimal.uint) :
  d <> Decimal.Nil -> NilZero.string_of_uint d = NilEmpty.string_of_uint d.
Proof. destruct d; [congruence | reflexivity ..]. Qed.

(** Printing an int and parsing it again gives the int back. *)
Lemma py_int_py_str_int (n : Z) : py_int (py_str_int n) = inr n.
Proof.
  unfold py_int, py_str_int.
  destruct n as [|p|p]; [reflexivity| |].
  - cbn [Z.to_int NilZero.string_of_int].
    pose proof (Unsigned.to_uint_nonnil p) as Hn.
    rewrite string_of_uint_nonnil by exact Hn. fold (uint_chars (Pos.to_uint p)).
    rewrite strip_nonspace by apply uint_chars_nonspace.
    rewrite split_sign_uint, digits_us_uint by exact Hn.
    rewrite <- uint_val_of_uint, Unsigned.of_to. reflexivity.
  - cbn [Z.to_int NilZero.string_of_int list_ascii_of_string].
    pose proof (Unsigned.to_uint_nonnil p) as Hn.
    rewrite string_of_uint_nonnil by exact Hn. fold (uint_chars (Pos.to_uint p)).
    rewrite strip_nonspace
      by (constructor; [reflexivity | apply uint_chars_nonspace]).
    cbn [split_sign]. change (code "-" =? 45)%N with true. cbv iota.
    rewrite digits_us_uint by exact Hn.
    rewrite <- uint_val_of_uint, Unsigned.of_to. reflexivity.
Qed.

Lemma assign_type_int (n : Z) : assign_type (VInt n) = inr (PInt n).
Proof.
  rewrite assign_type_scalar by exact I. cbn [py_str].
  rewrite py_int_py_str_int. reflexivity.
Qed.

(** An int under a tag outside the exclude list is stored as it is,
    unless it is zero. *)
Lemma parse_header_int_tag (ptd : dataset) (tag : string) (n : Z) :
  NoDup (map fst ptd) ->
  In (tag, Plain (VInt n)) ptd ->
  mem tag exclude_tags = false ->
  dict_get tag (parse_header ptd) = if n =? 0 then None else Some (PInt n).
Proof.
  intros Hnd Hin Hm.
  rewrite (parse_header_lookup ptd tag _ Hnd Hin).
  rewrite stored_by_tag_other by (exact Hm || exact I).
  cbn [has_value]. rewrite assign_type_int. unfold kept. cbn [truthy].
  destruct (n =? 0); reflexivity.
Qed.

(** C7 fails for a value that normalises to zero.  [parse_header] lets
    the integer 0 through its first test ([value or value == 0], "Some
    values are zero"), normalises it to the integer 0, and then drops it
    at [if formatted:]; [get_seq_data] drops it at [if s_val:].  The
    float 0.0 is dropped in the same way. *)
Theorem parse_header_drops_zero :
  has_value (VInt 0) = true /\
  assign_type (VInt 0) = inr (PInt 0) /\
  parse_header [("SeriesNumber", Plain (VInt 0))] = [] /\
  get_seq_data [[("SeriesNumber", Plain (VInt 0))]] exclude_tags = inr [] /\
  assign_type (VFloat "0.0") = inr (PFloat (FDec false 0 (-1))) /\
  parse_header [("RescaleIntercept", Plain (VFloat "0.0"))] = [] /\
  parse_header [("SeriesNumber", Plain (VInt 7))] = [("SeriesNumber", PInt 7)].
Proof.
  repeat split.
Qed.

(** C8 fails below the top level.  [parse_header] stores the mapping of
    a sequence only when it is not empty; [get_seq_data] stores the
    mapping of a nested sequence without that test.  The empty sequence
    B inside the sequence A flattens to the empty mapping and appears
    under the key B. *)
Theorem get_seq_data_keeps_empty_group :
  get_seq_data [] exclude_tags = inr [] /\
  parse_header [("B", Sequence [])] = [] /\
  get_seq_data [[("B", Sequence [])]] exclude_tags = inr [("B", PDict [])] /\
  parse_header [("A", Sequence [[("B", Sequence [])]])]
  = [("A", PDict [("B", PDict [])])].
Proof.
  repeat split.
Qed.

(** ** Merging the groups of a sequence *)

Lemma foldM_app {A S} (f : S -> A -> res S) (a b : list A) (s : S) :
  foldM f (a ++ b) s = bind (foldM f a s) (foldM f b).
Proof.
  revert s. induction a as [|x a IH]; intros s; simpl; [reflexivity|].
  destruct (f s x) as [e|s']; simpl; [reflexivity | apply IH].
Qed.

Lemma overrides_store (k : string) (o : option pyval) (a b d0 : dict) :
  overrides a b d0 -> overrides (store k o a) (store k o b) d0.
Proof.
  intros R k'. rewrite !dict_get_store.
  destruct (String.eqb k' k); [|apply R].
  destruct o; [reflexivity | apply R].
Qed.

Section Accumulator.

Variable ignore_keys : list string.
Variable d0 : dict.

(** What a group stores does not depend on what [seq_dict] holds. *)
Lemma seq_group_overrides (g : list (string * value)) (a b b' : dict) :
  overrides a b d0 ->
  seq_group ignore_keys b g = inr b' ->
  exists a', seq_group ignore_keys a g = inr a' /\ overrides a' b' d0.
Proof.
  unfold seq_group. revert a b.
  induction g as [|[k v] g IH]; intros a b R H; simpl in *.
  - injection H as <-. exists a. split; [reflexivity | exact R].
  - destruct (seq_item ignore_keys k v) as [e|o]; simpl in *; [discriminate|].
    apply (IH (store k o a) (store k o b)); [|exact H].
    apply overrides_store. exact R.
Qed.

Lemma seq_groups_overrides (gs : list (list (string * value))) (a b b' : dict) :
  overrides a b d0 ->
  foldM (seq_group ignore_keys) gs b = inr b' ->
  exists a', foldM (seq_group ignore_keys) gs a = inr a' /\ overrides a' b' d0.
Proof.
  revert a b. induction gs as [|g gs IH]; intros a b R H; simpl in *.
  - injection H as <-. exists a. split; [reflexivity | exact R].
  - destruct (seq_group ignore_keys b g) as [e|b1] eqn:Eb; simpl in *;
      [discriminate|].
    destruct (seq_group_overrides g a b b1 R Eb) as [a1 [Ea R1]].
    rewrite Ea. simpl. apply (IH a1 b1); assumption.
Qed.

End Accumulator.

(** C10 as stated fails: it would have the later group's value for a tag
    replace the earlier one whenever two groups define the tag.  With
    the groups {A: "x"} and {A: "?"}, the later value is dropped by
    [if s_val:], and the result keeps the earlier value "x" under A,
    which the later group alone does not give. *)
Lemma get_seq_data_later_value_not_stored :
  ~ (forall (g1 g2 : list (string * value)) (k : string) (d d2 : dict),
       In k (map fst g1) -> In k (map fst g2) ->
       get_seq_data [g1; g2] [] = inr d ->
       get_seq_data [g2] [] = inr d2 ->
       dict_get k d = dict_get k d2).
Proof.
  intros H.
  specialize (H [("A", Plain (VStr "x"))] [("A", Plain (VStr "?"))] "A"
                [("A", PStr "x")] []).
  assert (E : dict_get "A" [("A", PStr "x")] = dict_get "A" []).
  { apply H; try reflexivity; left; reflexivity. }
  discriminate E.
Qed.

(** C10, amended.  [get_seq_data] merges the groups of a sequence into
    one mapping, the later groups on top of the earlier ones: the result
    for [gs1 ++ gs2] holds, under each key, what the groups [gs2] store
    under it, and where they store nothing (the tag is absent there, is
    skipped, or its value is dropped) what the groups [gs1] store. *)
Theorem get_seq_data_merge (ignore_keys : list string)
  (gs1 gs2 : list (list (string * value))) (d1 d2 : dict) :
  get_seq_data gs1 ignore_keys = inr d1 ->
  get_seq_data gs2 ignore_keys = inr d2 ->
  exists d,
    get_seq_data (gs1 ++ gs2) ignore_keys = inr d /\
    forall k, dict_get k d
              = match dict_get k d2 with
                | Some v => Some v
                | None => dict_get k d1
                end.
Proof.
  unfold get_seq_data. intros H1 H2.
  rewrite foldM_app, H1. cbn [bind].
  apply (seq_groups_overrides ignore_keys d1 gs2 d1 [] d2); [|exact H2].
  intros k. reflexivity.
Qed.

Lemma get_seq_data_merge_witness :
  let g1 := [("A", Plain (VStr "x")); ("B", Plain (VStr "y"))] in
  let g2 := [("A", Plain (VStr "z")); ("B", Plain (VStr "?"))] in
  get_seq_data [g1] exclude_tags = inr [("A", PStr "x"); ("B", PStr "y")] /\
  get_seq_data [g2] exclude_tags = inr [("A", PStr "z")] /\
  exists d,
    get_seq_data ([g1] ++ [g2]) exclude_tags = inr d /\
    forall k, dict_get k d
              = match dict_get k [("A", PStr "z")] with
                | Some v => Some v
                | None => dict_get k [("A", PStr "x"); ("B", PStr "y")]
                end.
Proof.
  intros g1 g2.
  split; [reflexivity|]. split; [reflexivity|].
  exact (get_seq_data_merge exclude_tags [g1] [g2] _ _ eq_refl eq_refl).
Defined.

(** ** Where an excluded tag can appear *)

(** The recursive call of [get_seq_data] on a nested sequence. *)
Lemma seq_item_sequence (ignore_keys : list string) (s_key : string)
  (groups : list (list (string * value))) :
  seq_item ignore_keys s_key (Sequence groups)
  = if mem s_key ignore_keys then ret None
    else bind (get_seq_data groups ignore_keys) (fun _seq => ret (Some (PDict _seq))).
Proof.
  cbn [seq_item]. destruct (mem s_key ignore_keys); [reflexivity|].
  unfold get_seq_data.
  match goal with |- bind (?F groups []) _ = _ => set (loop := F) end.
  assert (E : forall gs d, loop gs d = foldM (seq_group ignore_keys) gs d).
  { induction gs as [|g gs IH]; intros d; [reflexivity|].
    cbn [foldM]. unfold loop at 1. fold loop.
    match goal with |- bind (?G g d) _ = _ => set (entries := G) end.
    assert (Eg : forall es d0, entries es d0 = seq_group ignore_keys d0 es).
    { induction es as [|[k v] es IHe]; intros d0; [reflexivity|].
      unfold seq_group. cbn [foldM]. unfold entries at 1. fold entries.
      destruct (seq_item ignore_keys k v) as [e|o]; cbn [bind ret]; [reflexivity|].
      apply IHe. }
    rewrite Eg. destruct (seq_group ignore_keys d g); cbn [bind]; [reflexivity|].
    apply IH. }
  rewrite E. reflexivity.
Qed.

(** Induction on a decoded value, through the groups of a sequence. *)
Lemma value_nested_ind (P : value -> Prop) :
  (forall p, P (Plain p)) ->
  (forall groups,
     Forall (Forall (fun kv : string * value => P (snd kv))) groups ->
     P (Sequence groups)) ->
  forall v, P v.
Proof.
  intros HP HS.
  fix IH 1. intros [p|groups]; [apply HP|].
  apply HS.
  induction groups as [|g groups IHg]; constructor; [|exact IHg].
  induction g as [|[k v] g IHe]; constructor; [apply IH | exact IHe].
Qed.

Lemma dict_set_in (k k' : string) (x v : pyval) (d : dict) :
  In (k', v) (dict_set k x d) -> (k' = k /\ v = x) \/ In (k', v) d.
Proof.
  induction d as [|[k0 v0] d IH]; simpl.
  - intros [E|[]]. inversion E. auto.
  - destruct (String.eqb k k0); simpl.
    + intros [E|H]; [inversion E; auto | auto].
    + intros [E|H]; [auto | destruct (IH H); auto].
Qed.

Lemma mentions_dict_set (k k0 : string) (x : pyval) (d : dict) :
  mentions k (PDict (dict_set k0 x d)) ->
  k = k0 \/ mentions k x \/ mentions k (PDict d).
Proof.
  intros M. inversion M as [d' Hk|d' k' v Hin Hv|]; subst.
  - unfold dict_keys in Hk. apply in_map_iff in Hk.
    destruct Hk as [[k1 v1] [E Hin]]. simpl in E. subst k1.
    destruct (dict_set_in _ _ _ _ _ Hin) as [[-> _]|Hd]; [auto|].
    right. right. apply mentions_key. unfold dict_keys.
    apply in_map_iff. exists (k, v1). auto.
  - destruct (dict_set_in _ _ _ _ _ Hin) as [[_ ->]|Hd]; [auto|].
    right. right. apply (mentions_nested k d k' v); assumption.
Qed.

Lemma mentions_store (k k0 : string) (o : option pyval) (d : dict) :
  mentions k (PDict (store k0 o d)) ->
  (exists x, o = Some x /\ (k = k0 \/ mentions k x)) \/ mentions k (PDict d).
Proof.
  destruct o as [x|]; simpl; [|auto].
  intros M. destruct (mentions_dict_set _ _ _ _ M) as [E|[E|E]]; eauto.
Qed.

Lemma mentions_empty (k : string) : ~ mentions k (PDict []).
Proof. intros M. inversion M; subst; simpl in *; contradiction. Qed.

(** The values that the normaliser returns hold no mapping. *)
Lemma format_string_flat (k s : string) : ~ mentions k (format_string s).
Proof.
  destruct (format_string_cases s) as [E|[t [E _]]]; rewrite E; intros M; inversion M.
Qed.

Lemma format_nonempty_flat (xs : list elem) (l : list pyval) :
  format_nonempty xs = inr l -> forall v, In v l -> exists s, v = format_string s.
Proof.
  revert l. induction xs as [|x xs IH]; simpl; intros l H v Hv.
  - injection H as <-. contradiction.
  - destruct (elem_len x) as [e|n]; simpl in H; [discriminate|].
    destruct (format_nonempty xs) as [e|ys]; simpl in H; [discriminate|].
    injection H as <-.
    destruct (0 <? n)%nat; [|eauto].
    destruct Hv as [<-|Hv]; eauto.
Qed.

Lemma assign_type_flat (k : string) (p : plain) (x : pyval) :
  assign_type p = inr x -> ~ mentions k x.
Proof.
  intros H M. destruct p as [s|n|s|s|s|xs].
  1,2,3,5: rewrite assign_type_scalar in H by exact I;
    destruct (py_int _); [|injection H as <-; inversion M];
    destruct (py_float _); injection H as <-;
    [exact (format_string_flat _ _ M) | inversion M].
  - injection H as <-. exact (format_string_flat _ _ M).
  - rewrite assign_type_list in H.
    destruct (mapM elem_int xs) as [e|l].
    + destruct (mapM elem_float xs) as [e'|l'].
      * destruct e'; try discriminate.
        destruct (format_nonempty xs) as [e''|l''] eqn:F; [discriminate|].
        injection H as <-. inversion M as [| |xs' v Hin Hv]; subst.
        destruct (format_nonempty_flat _ _ F v Hin) as [s ->].
        exact (format_string_flat _ _ Hv).
      * injection H as <-. inversion M as [| |xs' v Hin Hv]; subst.
        apply in_map_iff in Hin. destruct Hin as [f [<- _]]. inversion Hv.
    + injection H as <-. inversion M as [| |xs' v Hin Hv]; subst.
      apply in_map_iff in Hin. destruct Hin as [n [<- _]]. inversion Hv.
Qed.

Lemma kept_some (v x : pyval) : kept v = Some x -> x = v.
Proof. unfold kept. destruct (truthy v); congruence. Qed.

Section Denylist.

Variable ignore_keys : list string.

Lemma clean_store (k0 : string) (o : option pyval) (d : dict) :
  clean ignore_keys d ->
  (forall x, o = Some x ->
     mem k0 ignore_keys = false /\
     forall k, mem k ignore_keys = true -> ~ mentions k x) ->
  clean ignore_keys (store k0 o d).
Proof.
  intros Hd Ho k Hk M.
  destruct (mentions_store _ _ _ _ M) as [[x [-> [E|Mx]]]|Md].
  - subst k0. destruct (Ho x eq_refl) as [Hf _]. congruence.
  - destruct (Ho x eq_refl) as [_ Hx]. exact (Hx k Hk Mx).
  - exact (Hd k Hk Md).
Qed.

Lemma seq_group_clean (g : list (string * value)) :
  Forall (fun kv => item_clean ignore_keys (snd kv)) g ->
  forall d d', clean ignore_keys d ->
               seq_group ignore_keys d g = inr d' -> clean ignore_keys d'.
Proof.
  unfold seq_group.
  induction 1 as [|[k v] g Hv Hg IH]; intros d d' Hd H; simpl in H.
  - injection H as <-. exact Hd.
  - destruct (seq_item ignore_keys k v) as [e|o] eqn:E; simpl in H; [discriminate|].
    apply (IH (store k o d)); [|exact H].
    apply clean_store; [exact Hd|].
    intros x ->. exact (Hv k x E).
Qed.

Lemma seq_groups_clean (gs : list (list (string * value))) :
  Forall (Forall (fun kv => item_clean ignore_keys (snd kv))) gs ->
  forall d d', clean ignore_keys d ->
               foldM (seq_group ignore_keys) gs d = inr d' -> clean ignore_keys d'.
Proof.
  induction 1 as [|g gs Hg Hgs IH]; intros d d' Hd H; simpl in H.
  - injection H as <-. exact Hd.
  - destruct (seq_group ignore_keys d g) as [e|d1] eqn:E; simpl in H; [discriminate|].
    apply (IH d1); [|exact H].
    exact (seq_group_clean g Hg d d1 Hd E).
Qed.

Lemma clean_empty : clean ignore_keys [].
Proof. intros k _. apply mentions_empty. Qed.

Lemma seq_item_clean (v : value) : item_clean ignore_keys v.
Proof.
  induction v as [p|groups IH] using value_nested_ind; intros s_key x H.
  - cbn [seq_item] in H.
    destruct (is_uid p || mem s_key ignore_keys) eqn:E; [discriminate|].
    apply Bool.orb_false_iff in E. destruct E as [_ Hm]. split; [exact Hm|].
    intros k _ M.
    destruct p as [s|n|s|s|s|xs]; cbv [bind ret] in H;
      try (match type of H with
           | context [assign_type ?q] =>
               destruct (assign_type q) as [e|v] eqn:A; cbv [bind ret] in H;
               [discriminate|];
               assert (x = v) by (apply kept_some; congruence); subst x;
               exact (assign_type_flat k _ _ A M)
           end).
    assert (x = format_string s) by (apply kept_some; congruence). subst x.
    exact (format_string_flat _ _ M).
  - rewrite seq_item_sequence in H.
    destruct (mem s_key ignore_keys) eqn:Hm; [discriminate|]. split; [reflexivity|].
    destruct (get_seq_data groups ignore_keys) as [e|d] eqn:G; cbv [bind ret] in H;
      [discriminate|].
    assert (x = PDict d) by congruence. subst x.
    exact (seq_groups_clean groups IH [] d clean_empty G).
Qed.

(** Inside the groups of a sequence the ignore list holds at every
    depth: no ignored key is a key of the mapping that [get_seq_data]
    returns, or of a mapping nested in it. *)
Lemma get_seq_data_clean (sequence : list (list (string * value))) (d : dict) :
  get_seq_data sequence ignore_keys = inr d -> clean ignore_keys d.
Proof.
  intros H. apply (seq_groups_clean sequence) with (d := []);
    [|exact clean_empty|exact H].
  apply Forall_forall. intros g _. apply Forall_forall. intros kv _.
  apply seq_item_clean.
Qed.

End Denylist.

Lemma stored_by_tag_mentions (tag k : string) (v : value) (x : pyval) :
  mem k exclude_tags = true ->
  stored_by_tag tag v = Some x -> ~ mentions k x.
Proof.
  intros Hk H M. destruct v as [p|groups].
  - destruct (mem tag exclude_tags) eqn:Ht.
    + rewrite stored_by_tag_excluded in H by exact Ht. discriminate.
    + destruct p as [s|n|s|s|s|xs];
        try (rewrite stored_by_tag_other in H by (exact Ht || exact I);
             destruct (has_value _); [|discriminate];
             match type of H with
             | context [assign_type ?q] =>
                 destruct (assign_type q) as [e|v] eqn:A; [discriminate|];
                 apply kept_some in H; subst x;
                 exact (assign_type_flat k _ _ A M)
             end).
      rewrite stored_by_tag_string in H by exact Ht.
      destruct (Z.of_nat (String.length s) <? 10240).
      * apply kept_some in H. subst x. exact (format_string_flat _ _ M).
      * destruct (assign_type (VStr s)) as [e|v] eqn:A; [discriminate|].
        apply kept_some in H. subst x. exact (assign_type_flat k _ _ A M).
  - rewrite stored_by_tag_sequence in H.
    destruct (get_seq_data groups exclude_tags) as [e|d] eqn:G; [discriminate|].
    apply kept_some in H. subst x.
    exact (get_seq_data_clean exclude_tags groups d G k Hk M).
Qed.

Lemma store_loop_excluded (ptd suffix : dataset) (h : dict) (k : string) :
  mem k exclude_tags = true ->
  (forall tag v, In (tag, v) suffix -> In (tag, v) ptd) ->
  (mentions k (PDict h) -> exists groups, In (k, Sequence groups) ptd) ->
  mentions k (PDict (store_loop stored_by_tag suffix h)) ->
  exists groups, In (k, Sequence groups) ptd.
Proof.
  intros Hk. revert h.
  induction suffix as [|[tag v] suffix IH]; intros h Hsub Hh M.
  - exact (Hh M).
  - unfold store_loop in M. cbn [fold_left] in M.
    apply (IH (store tag (stored_by_tag tag v) h)); [| |exact M].
    + intros t w Hin. apply Hsub. right. exact Hin.
    + intros M'.
      destruct (mentions_store _ _ _ _ M') as [[x [E [Ek|Mx]]]|Mh].
      * subst tag. destruct v as [p|groups].
        -- rewrite stored_by_tag_excluded in E by exact Hk. discriminate.
        -- exists groups. apply Hsub. left. reflexivity.
      * exfalso. exact (stored_by_tag_mentions tag k v x Hk E Mx).
      * exact (Hh Mh).
Qed.

(** The exclude list fails in one place only: an excluded tag is a key
    of the flattened header, at any depth, only when the data set has it
    at the top level with a sequence as its value. *)
Lemma parse_header_excluded_only_top_sequence (ptd : dataset) (k : string) :
  mem k exclude_tags = true ->
  mentions k (PDict (parse_header ptd)) ->
  exists groups, In (k, Sequence groups) ptd.
Proof.
  intros Hk M. rewrite parse_header_store_loop in M.
  apply (store_loop_excluded ptd ptd [] k Hk); [auto| |exact M].
  intros M'. exfalso. exact (mentions_empty k M').
Qed.

(** * Further properties of the code *)

(** ** [format_string] *)

Lemma sfilter_chars (f : ascii -> bool) (s : string) :
  Forall (fun c => f c = true) (chars (sfilter f s)).
Proof.
  unfold chars. induction s as [|c s IH]; simpl; [constructor|].
  destruct (f c) eqn:E; simpl; [constructor; assumption | exact IH].
Qed.

Lemma sfilter_all (f : ascii -> bool) (s : string) :
  Forall (fun c => f c = true) (chars s) -> sfilter f s = s.
Proof.
  unfold chars. induction s as [|c s IH]; simpl; intros H; [reflexivity|].
  inversion H as [|? ? Hc Hs]; subst. rewrite Hc, IH by exact Hs. reflexivity.
Qed.

Lemma printable_is_ascii (c : ascii) : printable c = true -> is_ascii c = true.
Proof.
  unfold printable, is_ascii. intros H. apply N.leb_le.
  apply Bool.orb_true_iff in H.
  destruct H as [H|H]; apply Bool.andb_true_iff in H; destruct H as [_ H];
    apply N.leb_le in H; lia.
Qed.

Lemma format_string_text (s t : string) :
  format_string s = PStr t ->
  t = sfilter printable (sfilter is_ascii s) /\ t <> "" /\ t <> "?".
Proof.
  intros H. destruct (format_string_cases s) as [E|[t' [E [H1 H2]]]];
    rewrite E in H; [discriminate|].
  assert (t' = t) by congruence. subst t'. repeat split; try assumption.
  unfold format_string in E.
  destruct ((_ && _) || _); [discriminate | congruence].
Qed.

(** What [format_string] returns is made of printable ASCII characters
    only, and is neither the empty string nor the placeholder "?". *)
Theorem format_string_printable (s t : string) :
  format_string s = PStr t ->
  Forall (fun c => printable c = true /\ is_ascii c = true) (chars t) /\
  t <> "" /\ t <> "?".
Proof.
  intros H. destruct (format_string_text s t H) as [E [H1 H2]].
  repeat split; try assumption.
  pose proof (sfilter_chars printable (sfilter is_ascii s)) as F.
  rewrite <- E in F. apply Forall_impl with (2 := F).
  intros c Hc. split; [exact Hc | apply printable_is_ascii; exact Hc].
Qed.

Lemma format_string_printable_witness :
  let s := String (ascii_of_N 233) (String (ascii_of_N 7) "Doe^John") in
  format_string s = PStr "Doe^John" /\
  Forall (fun c => printable c = true /\ is_ascii c = true) (chars "Doe^John") /\
  "Doe^John" <> "" /\ "Doe^John" <> "?".
Proof.
  intros s. split; [reflexivity|].
  exact (format_string_printable s "Doe^John" eq_refl).
Defined.

(** Sanitising twice is sanitising once: [format_string] returns its own
    results unchanged. *)
Theorem format_string_idempotent (s t : string) :
  format_string s = PStr t -> format_string t = PStr t.
Proof.
  intros H. destruct (format_string_text s t H) as [E [H1 H2]].
  assert (F : Forall (fun c => printable c = true) (chars t)).
  { rewrite E. apply sfilter_chars. }
  assert (G : Forall (fun c => is_ascii c = true) (chars t)).
  { apply Forall_impl with (2 := F). exact printable_is_ascii. }
  unfold format_string. rewrite (sfilter_all is_ascii t G), (sfilter_all printable t F).
  destruct t as [|c t']; [congruence|].
  destruct (String.eqb_spec (String c t') "?") as [Eq|_]; [congruence|].
  rewrite Bool.andb_false_r. reflexivity.
Qed.

Lemma format_string_idempotent_witness :
  let s := String (ascii_of_N 233) (String (ascii_of_N 7) "Doe^John") in
  format_string s = PStr "Doe^John" /\
  format_string "Doe^John" = PStr "Doe^John".
Proof.
  intros s. split; [reflexivity|].
  exact (format_string_idempotent s "Doe^John" eq_refl).
Defined.

(** ** [assign_type] *)

Lemma mapM_length {A B} (f : A -> res B) (xs : list A) (l : list B) :
  mapM f xs = inr l -> List.length l = List.length xs.
Proof.
  revert l. induction xs as [|x xs IH]; simpl; intros l H.
  - injection H as <-. reflexivity.
  - destruct (f x) as [e|y]; simpl in H; [discriminate|].
    destruct (mapM f xs) as [e|ys]; simpl in H; [discriminate|].
    injection H as <-. simpl. f_equal. apply IH. reflexivity.
Qed.

Lemma format_nonempty_length (xs : list elem) (l : list pyval) :
  format_nonempty xs = inr l -> (List.length l <= List.length xs)%nat.
Proof.
  revert l. induction xs as [|x xs IH]; simpl; intros l H.
  - injection H as <-. simpl. lia.
  - destruct (elem_len x) as [e|n]; simpl in H; [discriminate|].
    destruct (format_nonempty xs) as [e|ys]; simpl in H; [discriminate|].
    specialize (IH ys eq_refl). injection H as <-.
    destruct (0 <? n)%nat; simpl; lia.
Qed.

Lemma forallb_map_const {A} (g : A -> pyval) (p : pyval -> bool) (l : list A) :
  (forall a, p (g a) = true) -> forallb p (map g l) = true.
Proof.
  intros H. induction l as [|a l IH]; simpl; [reflexivity|].
  rewrite H, IH. reflexivity.
Qed.

(** A normalised list is homogeneous: all its elements are ints, or all
    are floats, or all come from the string pass (a str or None); and it
    is never longer than the list it came from. *)
Theorem assign_type_list_homogeneous (xs : list elem) (v : pyval) :
  assign_type (VMulti xs) = inr v ->
  exists l,
    v = PList l /\
    (List.length l <= List.length xs)%nat /\
    (forallb is_int_val l = true \/
     forallb is_float_val l = true \/
     forallb is_text_val l = true).
Proof.
  rewrite assign_type_list. intros H.
  destruct (mapM elem_int xs) as [e|l] eqn:Ei.
  - destruct (mapM elem_float xs) as [e'|l'] eqn:Ef.
    + destruct e'; try discriminate.
      destruct (format_nonempty xs) as [e''|l''] eqn:F; [discriminate|].
      exists l''. split; [congruence|].
      split; [exact (format_nonempty_length _ _ F)|].
      right. right. apply forallb_forall. intros x Hx.
      destruct (format_nonempty_flat _ _ F x Hx) as [s ->].
      destruct (format_string_cases s) as [E|[t [E _]]]; rewrite E; reflexivity.
    + exists (map PFloat l'). split; [congruence|].
      split; [rewrite length_map, (mapM_length _ _ _ Ef); lia|].
      right. left. apply forallb_map_const. reflexivity.
  - exists (map PInt l). split; [congruence|].
    split; [rewrite length_map, (mapM_length _ _ _ Ei); lia|].
    left. apply forallb_map_const. reflexivity.
Qed.

Lemma assign_type_list_homogeneous_witness :
  assign_type (VMulti [EStr "1"; EStr "2.5"; EStr " 3 "])
  = inr (PList [PFloat (FDec false 1 0); PFloat (FDec false 25 (-1));
                PFloat (FDec false 3 0)]) /\
  exists l,
    PList [PFloat (FDec false 1 0); PFloat (FDec false 25 (-1));
           PFloat (FDec false 3 0)] = PList l /\
    (List.length l <= List.length [EStr "1"; EStr "2.5"; EStr " 3 "])%nat /\
    (forallb is_int_val l = true \/
     forallb is_float_val l = true \/
     forallb is_text_val l = true).
Proof.
  split; [reflexivity|].
  exact (assign_type_list_homogeneous
           [EStr "1"; EStr "2.5"; EStr " 3 "] _ eq_refl).
Defined.





(** A list of ints is normalised to the list of the same ints. *)
Theorem assign_type_int_list (ns : list Z) :
  assign_type (VMulti (map EInt ns)) = inr (PList (map PInt ns)).
Proof.
  rewrite assign_type_list.
  assert (E : mapM elem_int (map EInt ns) = inr ns).
  { induction ns as [|n ns IH]; [reflexivity|].
    cbn [map mapM elem_int bind ret]. rewrite IH. reflexivity. }
  rewrite E. reflexivity.
Qed.

(** ** [parse_header] *)

Lemma kept_truthy (v x : pyval) : kept v = Some x -> truthy x = true.
Proof. unfold kept. destruct (truthy v) eqn:E; congruence. Qed.

Lemma dict_get_none (k : string) (d : dict) :
  dict_get k d = None <-> ~ In k (dict_keys d).
Proof.
  induction d as [|[k' v'] d IH]; simpl; [tauto|].
  destruct (String.eqb_spec k k') as [->|Hne].
  - split; [discriminate | intros H; exfalso; apply H; auto].
  - rewrite IH. split; [intros H [E|Hin]; [congruence | tauto] | tauto].
Qed.

Lemma dict_keys_set (k k' : string) (v : pyval) (d : dict) :
  In k' (dict_keys (dict_set k v d)) <-> k' = k \/ In k' (dict_keys d).
Proof.
  induction d as [|[k0 v0] d IH]; simpl.
  - intuition.
  - destruct (String.eqb_spec k k0) as [->|Hne]; simpl; [intuition|].
    rewrite IH. intuition.
Qed.

Lemma dict_set_nodup (k : string) (v : pyval) (d : dict) :
  NoDup (dict_keys d) -> NoDup (dict_keys (dict_set k v d)).
Proof.
  induction d as [|[k0 v0] d IH]; simpl; intros H.
  - repeat constructor. simpl. tauto.
  - inversion H as [|? ? Hk0 Hd]; subst.
    destruct (String.eqb_spec k k0) as [->|Hne]; simpl.
    + constructor; assumption.
    + constructor; [|apply IH; exact Hd].
      intros Hin. apply dict_keys_set in Hin. destruct Hin; [congruence | tauto].
Qed.

Lemma stored_by_tag_truthy (tag : string) (v : value) (x : pyval) :
  stored_by_tag tag v = Some x -> truthy x = true.
Proof.
  intros H. destruct v as [p|groups].
  - destruct (mem tag exclude_tags) eqn:Ht.
    + rewrite stored_by_tag_excluded in H by exact Ht. discriminate.
    + destruct p as [s|n|s|s|s|xs];
        try (rewrite stored_by_tag_other in H by (exact Ht || exact I);
             destruct (has_value _); [|discriminate];
             match type of H with
             | context [assign_type ?q] =>
                 destruct (assign_type q) as [e|v]; [discriminate|];
                 exact (kept_truthy _ _ H)
             end).
      rewrite stored_by_tag_string in H by exact Ht.
      destruct (Z.of_nat (String.length s) <? 10240);
        [exact (kept_truthy _ _ H)|].
      destruct (assign_type (VStr s)) as [e|v]; [discriminate|].
      exact (kept_truthy _ _ H).
  - rewrite stored_by_tag_sequence in H.
    destruct (get_seq_data groups exclude_tags) as [e|d]; [discriminate|].
    exact (kept_truthy _ _ H).
Qed.

Section StoreLoopInvariants.

Variable f : string -> value -> option pyval.

Lemma store_loop_values (P : pyval -> Prop) (l : list (string * value)) (d : dict) :
  (forall k v x, f k v = Some x -> P x) ->
  (forall k x, dict_get k d = Some x -> P x) ->
  forall k x, dict_get k (store_loop f l d) = Some x -> P x.
Proof.
  intros Hf. revert d. induction l as [|[k1 v1] l IH]; intros d Hd k x H.
  - exact (Hd k x H).
  - unfold store_loop in H. cbn [fold_left] in H.
    apply (IH (store k1 (f k1 v1) d)) with (k := k); [|exact H].
    intros k' x' H'. rewrite dict_get_store in H'.
    destruct (String.eqb k' k1); [|exact (Hd k' x' H')].
    destruct (f k1 v1) as [y|] eqn:E; [|exact (Hd k' x' H')].
    injection H' as <-. exact (Hf k1 v1 y E).
Qed.

Lemma store_loop_nodup (l : list (string * value)) (d : dict) :
  NoDup (dict_keys d) -> NoDup (dict_keys (store_loop f l d)).
Proof.
  revert d. induction l as [|[k1 v1] l IH]; intros d Hd; [exact Hd|].
  unfold store_loop. cbn [fold_left]. apply IH.
  destruct (f k1 v1); simpl; [apply dict_set_nodup|]; exact Hd.
Qed.

End StoreLoopInvariants.

(** Pruning at the top level: no value of the flattened header is falsy.
    There is no None, no zero, no empty string, no empty list and no
    empty mapping directly under a key of the header. *)
Theorem parse_header_values_truthy (ptd : dataset) (k : string) (x : pyval) :
  dict_get k (parse_header ptd) = Some x -> truthy x = true.
Proof.
  rewrite parse_header_store_loop.
  apply (store_loop_values stored_by_tag (fun x => truthy x = true)).
  - intros tag v y. apply stored_by_tag_truthy.
  - intros k' y H. discriminate H.
Qed.

Lemma parse_header_values_truthy_witness :
  let ptd := [("A", Plain (VStr "?")); ("B", Plain (VInt 0));
              ("C", Sequence [[("D", Plain (VStr ""))]]);
              ("E", Plain (VMulti [EStr "4"; EStr "5"]))] in
  dict_get "E" (parse_header ptd) = Some (PList [PInt 4; PInt 5]) /\
  truthy (PList [PInt 4; PInt 5]) = true.
Proof.
  intros ptd. split; [reflexivity|].
  exact (parse_header_values_truthy ptd "E" _ eq_refl).
Defined.

(** The flattened header is a mapping over the tags of the data set: its
    keys are distinct, and each of them is a tag of the data set. *)
Theorem parse_header_keys (ptd : dataset) :
  NoDup (dict_keys (parse_header ptd)) /\
  forall k, In k (dict_keys (parse_header ptd)) -> In k (map fst ptd).
Proof.
  split.
  - rewrite parse_header_store_loop. apply store_loop_nodup. constructor.
  - intros k Hin.
    destruct (in_dec string_dec k (map fst ptd)) as [Hy|Hn]; [exact Hy|].
    exfalso. apply (parse_header_absent ptd k) in Hn.
    apply dict_get_none in Hn. exact (Hn Hin).
Qed.

(** Each tag is flattened on its own: in a data set with distinct tags,
    the entry of a tag is the one the tag would get in a data set that
    holds nothing else.  The other tags, those whose body raises
    included, have no effect on it. *)
Theorem parse_header_tag_alone (ptd : dataset) (tag : string) (v : value) :
  NoDup (map fst ptd) -> In (tag, v) ptd ->
  dict_get tag (parse_header ptd) = dict_get tag (parse_header [(tag, v)]).
Proof.
  intros Hnd Hin.
  rewrite (parse_header_lookup ptd tag v Hnd Hin).
  symmetry. apply parse_header_lookup; [|left; reflexivity].
  repeat constructor. simpl. tauto.
Qed.

Lemma parse_header_tag_alone_witness :
  let ptd := [("Bad", Plain (VMulti [EStr "x"; EInt 2]));
              ("SeriesDescription", Plain (VStr "PET AC"))] in
  NoDup (map fst ptd) /\
  In ("SeriesDescription", Plain (VStr "PET AC")) ptd /\
  dict_get "SeriesDescription" (parse_header ptd)
  = dict_get "SeriesDescription"
      (parse_header [("SeriesDescription", Plain (VStr "PET AC"))]).
Proof.
  intros ptd.
  assert (Hnd : NoDup (map fst ptd)).
  { repeat constructor; simpl; intuition discriminate. }
  assert (Hin : In ("SeriesDescription", Plain (VStr "PET AC")) ptd)
    by (right; left; reflexivity).
  split; [exact Hnd|]. split; [exact Hin|].
  exact (parse_header_tag_alone ptd "SeriesDescription" _ Hnd Hin).
Defined.

(** A tag whose value makes [assign_type] raise is left out of the
    header, and the run goes on: this is the [except: pass] of the loop. *)
Theorem parse_header_raising_tag_omitted (ptd : dataset) (tag : string)
  (p : plain) (e : exn) :
  NoDup (map fst ptd) -> In (tag, Plain p) ptd ->
  assign_type p = inl e ->
  dict_get tag (parse_header ptd) = None.
Proof.
  intros Hnd Hin He.
  rewrite (parse_header_lookup ptd tag _ Hnd Hin).
  destruct (mem tag exclude_tags) eqn:Ht;
    [apply stored_by_tag_excluded; exact Ht|].
  destruct p as [s|n|s|s|s|xs];
    try (rewrite assign_type_scalar in He by exact I;
         destruct (py_int _); [|discriminate];
         destruct (py_float _); discriminate);
    [discriminate|].
  rewrite stored_by_tag_other by (exact Ht || exact I).
  rewrite He. destruct (has_value (VMulti xs)); reflexivity.
Qed.

Lemma parse_header_raising_tag_omitted_witness :
  let ptd := [("Bad", Plain (VMulti [EStr "x"; EInt 2]));
              ("SeriesDescription", Plain (VStr "PET AC"))] in
  NoDup (map fst ptd) /\
  In ("Bad", Plain (VMulti [EStr "x"; EInt 2])) ptd /\
  assign_type (VMulti [EStr "x"; EInt 2]) = inl TypeError /\
  dict_get "Bad" (parse_header ptd) = None.
Proof.
  intros ptd.
  assert (Hnd : NoDup (map fst ptd)).
  { repeat constructor; simpl; intuition discriminate. }
  assert (Hin : In ("Bad", Plain (VMulti [EStr "x"; EInt 2])) ptd)
    by (left; reflexivity).
  split; [exact Hnd|]. split; [exact Hin|]. split; [reflexivity|].
  exact (parse_header_raising_tag_omitted ptd "Bad" _ TypeError Hnd Hin eq_refl).
Defined.

(** A sequence at the top level is stored under its tag as the mapping
    of its groups when that mapping is not empty, and is left out when
    it is empty; the exclude list plays no part here. *)
Theorem parse_header_sequence_tag (ptd : dataset) (tag : string)
  (sequence : list (list (string * value))) (seq_data : dict) :
  NoDup (map fst ptd) ->
  In (tag, Sequence sequence) ptd ->
  get_seq_data sequence exclude_tags = inr seq_data ->
  dict_get tag (parse_header ptd)
  = match seq_data with
    | [] => None
    | _ => Some (PDict seq_data)
    end.
Proof.
  intros Hnd Hin Hs.
  rewrite (parse_header_lookup ptd tag _ Hnd Hin), stored_by_tag_sequence, Hs.
  destruct seq_data; reflexivity.
Qed.

Lemma parse_header_sequence_tag_witness :
  let sequence := [[("Rows", Plain (VInt 2)); ("Comment", Plain (VStr "?"))]] in
  let ptd := [("Frames", Sequence sequence); ("Empty", Sequence [[]])] in
  NoDup (map fst ptd) /\
  In ("Frames", Sequence sequence) ptd /\
  get_seq_data sequence exclude_tags = inr [("Rows", PInt 2)] /\
  dict_get "Frames" (parse_header ptd) = Some (PDict [("Rows", PInt 2)]).
Proof.
  intros sequence ptd.
  assert (Hnd : NoDup (map fst ptd)).
  { repeat constructor; simpl; intuition discriminate. }
  assert (Hin : In ("Frames", Sequence sequence) ptd) by (left; reflexivity).
  split; [exact Hnd|]. split; [exact Hin|]. split; [reflexivity|].
  exact (parse_header_sequence_tag ptd "Frames" sequence _ Hnd Hin eq_refl).
Defined.

(** The order of the tags does not matter: two data sets with the same
    distinct tags and values, in any order, give headers with the same
    entries. *)
Theorem parse_header_order_irrelevant (ptd ptd' : dataset) (k : string) :
  NoDup (map fst ptd) -> Permutation ptd ptd' ->
  dict_get k (parse_header ptd) = dict_get k (parse_header ptd').
Proof.
  intros Hnd Hp.
  assert (Hnd' : NoDup (map fst ptd')).
  { apply (Permutation_NoDup (l := map fst ptd)); [|exact Hnd].
    apply Permutation_map. exact Hp. }
  destruct (in_dec string_dec k (map fst ptd)) as [Hy|Hn].
  - apply in_map_iff in Hy. destruct Hy as [[k' v] [E Hin]]. simpl in E. subst k'.
    rewrite (parse_header_lookup ptd k v Hnd Hin).
    rewrite (parse_header_lookup ptd' k v Hnd' (Permutation_in _ Hp Hin)).
    reflexivity.
  - rewrite (parse_header_absent ptd k Hn).
    rewrite parse_header_absent; [reflexivity|].
    intros Hin. apply Hn.
    apply (Permutation_in (l := map fst ptd')); [|exact Hin].
    apply Permutation_map. apply Permutation_sym. exact Hp.
Qed.

Lemma parse_header_order_irrelevant_witness :
  let a := ("SeriesNumber", Plain (VInt 3)) in
  let b := ("PatientName", Plain (VPersonName "Doe^John")) in
  NoDup (map fst [a; b]) /\
  Permutation [a; b] [b; a] /\
  dict_get "SeriesNumber" (parse_header [a; b])
  = dict_get "SeriesNumber" (parse_header [b; a]).
Proof.
  intros a b.
  assert (Hnd : NoDup (map fst [a; b])).
  { repeat constructor; simpl; intuition discriminate. }
  split; [exact Hnd|]. split; [apply perm_swap|].
  exact (parse_header_order_irrelevant [a; b] [b; a] "SeriesNumber" Hnd
           (perm_swap b a [])).
Defined.

(** A person name is stored as its sanitised text and is never turned
    into a number, whatever its length. *)
Theorem parse_header_person_name (ptd : dataset) (tag s : string) :
  NoDup (map fst ptd) ->
  In (tag, Plain (VPersonName s)) ptd ->
  mem tag exclude_tags = false ->
  dict_get tag (parse_header ptd)
  = match format_string s with PNone => None | v => Some v end.
Proof.
  intros Hnd Hin Hm.
  rewrite (parse_header_lookup ptd tag _ Hnd Hin).
  rewrite stored_by_tag_other by (exact Hm || exact I).
  cbn [has_value assign_type]. unfold ret.
  rewrite kept_format_string.
  destruct s as [|c s']; [reflexivity|]. reflexivity.
Qed.

Lemma parse_header_person_name_witness :
  let ptd := [("PatientName", Plain (VPersonName "42"))] in
  NoDup (map fst ptd) /\
  In ("PatientName", Plain (VPersonName "42")) ptd /\
  mem "PatientName" exclude_tags = false /\
  dict_get "PatientName" (parse_header ptd) = Some (PStr "42").
Proof.
  intros ptd.
  assert (Hnd : NoDup (map fst ptd)).
  { repeat constructor; simpl; intuition discriminate. }
  assert (Hin : In ("PatientName", Plain (VPersonName "42")) ptd)
    by (left; reflexivity).
  split; [exact Hnd|]. split; [exact Hin|]. split; [reflexivity|].
  exact (parse_header_person_name ptd "PatientName" "42" Hnd Hin eq_refl).
Defined.

Lemma parse_header_int_tag_witness :
  let ptd := [("SeriesNumber", Plain (VInt 3)); ("Rows", Plain (VInt 0))] in
  NoDup (map fst ptd) /\
  In ("SeriesNumber", Plain (VInt 3)) ptd /\
  mem "SeriesNumber" exclude_tags = false /\
  dict_get "SeriesNumber" (parse_header ptd) = Some (PInt 3).
Proof.
  intros ptd.
  assert (Hnd : NoDup (map fst ptd)).
  { repeat constructor; simpl; intuition discriminate. }
  assert (Hin : In ("SeriesNumber", Plain (VInt 3)) ptd) by (left; reflexivity).
  split; [exact Hnd|]. split; [exact Hin|]. split; [reflexivity|].
  exact (parse_header_int_tag ptd "SeriesNumber" 3 Hnd Hin eq_refl).
Defined.

Lemma parse_header_excluded_only_top_sequence_witness :
  let ptd := [("PixelData", Sequence [[("Rows", Plain (VInt 2))]])] in
  mem "PixelData" exclude_tags = true /\
  mentions "PixelData" (PDict (parse_header ptd)) /\
  exists groups, In ("PixelData", Sequence groups) ptd.
Proof.
  intros ptd.
  assert (M : mentions "PixelData" (PDict (parse_header ptd))).
  { apply mentions_key. left. reflexivity. }
  split; [reflexivity|]. split; [exact M|].
  exact (parse_header_excluded_only_top_sequence ptd "PixelData" eq_refl M).
Defined.

(** ** [get_seq_data] *)

Lemma seq_item_skipped (ignore_keys : list string) (k : string) (v : value) :
  visited ignore_keys (k, v) = false -> seq_item ignore_keys k v = inr None.
Proof.
  unfold visited. cbn [fst snd]. destruct v as [p|groups]; intros H.
  - cbn [seq_item]. apply Bool.negb_false_iff in H. rewrite H. reflexivity.
  - rewrite seq_item_sequence. apply Bool.negb_false_iff in H. rewrite H. reflexivity.
Qed.

Lemma seq_group_filter (ignore_keys : list string) (g : list (string * value))
  (d : dict) :
  seq_group ignore_keys d (filter (visited ignore_keys) g)
  = seq_group ignore_keys d g.
Proof.
  unfold seq_group. revert d. induction g as [|[k v] g IH]; intros d; [reflexivity|].
  cbn [filter]. destruct (visited ignore_keys (k, v)) eqn:E.
  - cbn [foldM]. destruct (seq_item ignore_keys k v); cbn [bind ret]; [reflexivity|].
    apply IH.
  - cbn [foldM]. rewrite (seq_item_skipped _ _ _ E). cbn [bind ret store]. apply IH.
Qed.

(** The entries that the loop skips play no part: taking the UID-typed
    values and the ignored keys out of every group beforehand gives the
    same result, exceptions included. *)
Theorem get_seq_data_skips (sequence : list (list (string * value)))
  (ignore_keys : list string) :
  get_seq_data (map (filter (visited ignore_keys)) sequence) ignore_keys
  = get_seq_data sequence ignore_keys.
Proof.
  unfold get_seq_data. generalize (@nil (string * pyval)).
  induction sequence as [|g gs IH]; intros d; [reflexivity|].
  cbn [map foldM]. rewrite seq_group_filter.
  destruct (seq_group ignore_keys d g); cbn [bind]; [reflexivity | apply IH].
Qed.

Lemma seq_item_value (ignore_keys : list string) (k : string) (v : value)
  (x : pyval) :
  seq_item ignore_keys k v = inr (Some x) ->
  truthy x = true \/ exists d, x = PDict d.
Proof.
  destruct v as [p|groups]; intros H.
  - left. cbn [seq_item] in H.
    destruct (is_uid p || mem k ignore_keys); [discriminate|].
    match type of H with
    | bind ?m _ = _ => destruct m as [e|y]; cbv [bind ret] in H; [discriminate|]
    end.
    apply (kept_truthy y). congruence.
  - right. rewrite seq_item_sequence in H.
    destruct (mem k ignore_keys); [discriminate|].
    destruct (get_seq_data groups ignore_keys) as [e|d]; cbv [bind ret] in H;
      [discriminate|].
    exists d. congruence.
Qed.

Section GroupInvariants.

Variable ignore_keys : list string.

Lemma seq_group_inv (P : dict -> Prop) (g : list (string * value)) (d d' : dict) :
  (forall k v x d0, In (k, v) g -> seq_item ignore_keys k v = inr (Some x) ->
                    P d0 -> P (dict_set k x d0)) ->
  P d -> seq_group ignore_keys d g = inr d' -> P d'.
Proof.
  unfold seq_group. revert d.
  induction g as [|[k v] g IH]; intros d Hstep Hd H; simpl in H.
  - injection H as <-. exact Hd.
  - destruct (seq_item ignore_keys k v) as [e|o] eqn:E; simpl in H; [discriminate|].
    apply (IH (store k o d)); [| |exact H].
    + intros k' v' x d0 Hin. apply Hstep. right. exact Hin.
    + destruct o as [x|]; simpl; [|exact Hd].
      apply (Hstep k v x d); [left; reflexivity | exact E | exact Hd].
Qed.

Lemma seq_groups_inv (P : dict -> Prop) (gs : list (list (string * value)))
  (d d' : dict) :
  (forall g k v x d0, In g gs -> In (k, v) g ->
                      seq_item ignore_keys k v = inr (Some x) ->
                      P d0 -> P (dict_set k x d0)) ->
  P d -> foldM (seq_group ignore_keys) gs d = inr d' -> P d'.
Proof.
  revert d. induction gs as [|g gs IH]; intros d Hstep Hd H; simpl in H.
  - injection H as <-. exact Hd.
  - destruct (seq_group ignore_keys d g) as [e|d1] eqn:E; simpl in H; [discriminate|].
    apply (IH d1); [| |exact H].
    + intros g' k v x d0 Hin. apply Hstep. right. exact Hin.
    + apply (seq_group_inv P g d d1); [|exact Hd|exact E].
      intros k v x d0 Hin. apply (Hstep g). left. reflexivity. exact Hin.
Qed.

End GroupInvariants.

(** The mapping that [get_seq_data] returns: its keys are distinct and
    are tags of the groups of the sequence; none of them, at any depth,
    is an ignored key; and each value is truthy or is the mapping of a
    nested sequence. *)
Theorem get_seq_data_mapping (sequence : list (list (string * value)))
  (ignore_keys : list string) (d : dict) :
  get_seq_data sequence ignore_keys = inr d ->
  NoDup (dict_keys d) /\
  (forall k, In k (dict_keys d) -> exists g, In g sequence /\ In k (map fst g)) /\
  (forall k, mem k ignore_keys = true -> ~ mentions k (PDict d)) /\
  (forall k x, dict_get k d = Some x -> truthy x = true \/ exists d', x = PDict d').
Proof.
  intros H. unfold get_seq_data in H. repeat split.
  - apply (seq_groups_inv ignore_keys (fun d => NoDup (dict_keys d)) sequence [] d);
      [|constructor|exact H].
    intros g k v x d0 _ _ _. apply dict_set_nodup.
  - apply (seq_groups_inv ignore_keys
             (fun d => forall k, In k (dict_keys d) ->
                                 exists g, In g sequence /\ In k (map fst g))
             sequence [] d); [|intros k []|exact H].
    intros g k v x d0 Hg Hkv _ Hd k' Hin.
    apply dict_keys_set in Hin. destruct Hin as [->|Hin]; [|exact (Hd k' Hin)].
    exists g. split; [exact Hg|]. apply in_map_iff. exists (k, v). auto.
  - exact (get_seq_data_clean ignore_keys sequence d H).
  - apply (seq_groups_inv ignore_keys
             (fun d => forall k x, dict_get k d = Some x ->
                                   truthy x = true \/ exists d', x = PDict d')
             sequence [] d); [|intros k x E; discriminate E|exact H].
    intros g k v x d0 _ _ Hx Hd k' y Hy.
    change (dict_set k x d0) with (store k (Some x) d0) in Hy.
    rewrite dict_get_store in Hy.
    destruct (String.eqb k' k); [|exact (Hd k' y Hy)].
    injection Hy as <-. exact (seq_item_value _ _ _ _ Hx).
Qed.

Lemma get_seq_data_mapping_witness :
  let sequence :=
    [[("Rows", Plain (VInt 2)); ("PixelData", Plain (VStr "raw"));
      ("Inner", Sequence [])];
     [("Rows", Plain (VInt 4)); ("SOPInstanceUID", Plain (VUID "1.2.3"))]] in
  let d := [("Rows", PInt 4); ("Inner", PDict [])] in
  get_seq_data sequence exclude_tags = inr d /\
  NoDup (dict_keys d) /\
  (forall k, In k (dict_keys d) -> exists g, In g sequence /\ In k (map fst g)) /\
  (forall k, mem k exclude_tags = true -> ~ mentions k (PDict d)) /\
  (forall k x, dict_get k d = Some x -> truthy x = true \/ exists d', x = PDict d').
Proof.
  intros sequence d. split; [reflexivity|].
  exact (get_seq_data_mapping sequence exclude_tags d eq_refl).
Defined.

Lemma seq_group_raises (ignore_keys : list string) (g : list (string * value))
  (k : string) (v : value) (e : exn) (d : dict) :
  In (k, v) g -> seq_item ignore_keys k v = inl e ->
  exists e', seq_group ignore_keys d g = inl e'.
Proof.
  unfold seq_group. revert d.
  induction g as [|[k1 v1] g IH]; intros d Hin He; [contradiction|].
  cbn [foldM]. destruct Hin as [E|Hin].
  - inversion E; subst. rewrite He. cbn [bind]. eauto.
  - destruct (seq_item ignore_keys k1 v1) as [e1|o]; cbn [bind ret]; [eauto|].
    apply IH; assumption.
Qed.

Lemma get_seq_data_raises (ignore_keys : list string)
  (sequence : list (list (string * value))) (g : list (string * value))
  (k : string) (v : value) (e : exn) :
  In g sequence -> In (k, v) g -> seq_item ignore_keys k v = inl e ->
  exists e', get_seq_data sequence ignore_keys = inl e'.
Proof.
  unfold get_seq_data. generalize (@nil (string * pyval)).
  induction sequence as [|g1 gs IH]; intros d Hg Hin He; [contradiction|].
  cbn [foldM]. destruct Hg as [->|Hg].
  - destruct (seq_group_raises ignore_keys g k v e d Hin He) as [e' E].
    rewrite E. cbn [bind]. eauto.
  - destruct (seq_group ignore_keys d g1) as [e1|d1]; cbn [bind]; [eauto|].
    apply IH; assumption.
Qed.

(** Inside a sequence nothing is caught: when one tag of one group
    raises, the whole sequence is lost, and its top-level tag is left
    out of the header. *)
Theorem parse_header_sequence_lost_on_raise (ptd : dataset) (tag : string)
  (sequence : list (list (string * value))) (g : list (string * value))
  (k : string) (v : value) (e : exn) :
  NoDup (map fst ptd) ->
  In (tag, Sequence sequence) ptd ->
  In g sequence -> In (k, v) g ->
  seq_item exclude_tags k v = inl e ->
  dict_get tag (parse_header ptd) = None.
Proof.
  intros Hnd Hin Hg Hkv He.
  rewrite (parse_header_lookup ptd tag _ Hnd Hin), stored_by_tag_sequence.
  destruct (get_seq_data_raises exclude_tags sequence g k v e Hg Hkv He) as [e' E].
  rewrite E. reflexivity.
Qed.

Lemma parse_header_sequence_lost_on_raise_witness :
  let bad := ("Bad", Plain (VMulti [EStr "x"; EInt 2])) in
  let g := [("Rows", Plain (VInt 2)); bad] in
  let ptd := [("Frames", Sequence [g])] in
  NoDup (map fst ptd) /\
  In ("Frames", Sequence [g]) ptd /\
  In g [g] /\ In bad g /\
  seq_item exclude_tags (fst bad) (snd bad) = inl TypeError /\
  dict_get "Frames" (parse_header ptd) = None.
Proof.
  intros bad g ptd.
  assert (Hnd : NoDup (map fst ptd)).
  { repeat constructor; simpl; intuition discriminate. }
  assert (Hin : In ("Frames", Sequence [g]) ptd) by (left; reflexivity).
  assert (Hg : In g [g]) by (left; reflexivity).
  assert (Hb : In bad g) by (right; left; reflexivity).
  split; [exact Hnd|]. split; [exact Hin|]. split; [exact Hg|].
  split; [exact Hb|]. split; [reflexivity|].
  exact (parse_header_sequence_lost_on_raise ptd "Frames" [g] g
           "Bad" (Plain (VMulti [EStr "x"; EInt 2])) TypeError
           Hnd Hin Hg Hb eq_refl).
Defined.

(** ** [ptd_reader] and the script *)

(** The last step of the reader on a file made of a payload, a header
    block, a four-byte field and the magic string, when the field holds
    the length of the block. *)
Lemma read_block_located (T : Type) (read_file : list byte -> res T)
  (payload header field : list byte) (w : world) :
  List.length field = 4%nat ->
  read_block T read_file (payload ++ header ++ field ++ MAGIC_STR)
    (Z.of_nat (List.length header)) w
  = (read_file header,
     mkWorld (Z.of_nat (List.length payload) + Z.of_nat (List.length header))
       (trace w ++ [EvRead (Z.of_nat (List.length payload))
                           (Z.of_nat (List.length header))])).
Proof.
  intros Hf.
  set (file := (payload ++ header ++ field ++ MAGIC_STR)%list).
  assert (Hlen : Z.of_nat (List.length file)
                 = Z.of_nat (List.length payload)
                   + Z.of_nat (List.length header) + 24).
  { unfold file. rewrite !length_app, Hf.
    change (List.length MAGIC_STR) with 20%nat. lia. }
  unfold read_block, io_bind at 1.
  rewrite seek_end_ok by (rewrite Hlen, MAGIC_STR_LEN_20; unfold calcsize_i; lia).
  unfold io_bind, io_lift.
  pose proof (read_part payload header (field ++ MAGIC_STR)) as R. fold file in R.
  rewrite R by (cbn [fpos]; rewrite Hlen, MAGIC_STR_LEN_20; unfold calcsize_i; lia).
  reflexivity.
Qed.

Lemma ptd_reader_payload (host : byteorder) (T : Type)
  (read_file : list byte -> res T) (payload header field : list byte) :
  unpack_i host field = inr (Z.of_nat (List.length header)) ->
  ptd_reader host T read_file (payload ++ header ++ field ++ MAGIC_STR)
    initial_world
  = (read_file header,
     mkWorld (Z.of_nat (List.length payload) + Z.of_nat (List.length header))
       [EvRead (Z.of_nat (List.length payload) + Z.of_nat (List.length header) + 4) 20;
        EvRead (Z.of_nat (List.length payload) + Z.of_nat (List.length header)) 4;
        EvRead (Z.of_nat (List.length payload)) (Z.of_nat (List.length header))]).
Proof.
  intros Hu. pose proof (unpack_i_length _ _ _ Hu) as Hf.
  replace (payload ++ header ++ field ++ MAGIC_STR)%list
    with ((payload ++ header) ++ field ++ MAGIC_STR)%list
    by (rewrite <- app_assoc; reflexivity).
  rewrite (ptd_reader_trailer host T read_file (payload ++ header) field _ _ Hu).
  rewrite <- app_assoc, (read_block_located T read_file payload header field _ Hf).
  cbn [trace initial_world app]. rewrite length_app, Nat2Z.inj_add. reflexivity.
Qed.

(** Locating the block in a real container: whatever payload comes
    first, and on either byte order, when the length field holds the
    length of the header block in front of it, the decoder receives
    exactly that block, after three reads inside the file: the magic
    string, the field, the block. *)
Theorem ptd_reader_locates_block (host : byteorder) (T : Type)
  (read_file : list byte -> res T) (payload header field : list byte) :
  unpack_i host field = inr (Z.of_nat (List.length header)) ->
  let p := Z.of_nat (List.length payload) in
  let n := Z.of_nat (List.length header) in
  let file := (payload ++ header ++ field ++ MAGIC_STR)%list in
  let r := ptd_reader host T read_file file initial_world in
  r = (read_file header,
       mkWorld (p + n) [EvRead (p + n + 4) 20; EvRead (p + n) 4; EvRead p n]) /\
  Forall (read_in_bounds (Z.of_nat (List.length file))) (trace (snd r)).
Proof.
  intros Hu p n file r.
  pose proof (unpack_i_length _ _ _ Hu) as Hf.
  assert (E : r = (read_file header,
                   mkWorld (p + n)
                     [EvRead (p + n + 4) 20; EvRead (p + n) 4; EvRead p n]))
    by (apply ptd_reader_payload; exact Hu).
  split; [exact E|]. rewrite E. cbn [snd trace].
  assert (Hlen : Z.of_nat (List.length file) = p + n + 24).
  { unfold file, p, n. rewrite !length_app, Hf.
    change (List.length MAGIC_STR) with 20%nat. lia. }
  repeat constructor; cbn [read_in_bounds]; lia.
Qed.

Lemma ptd_reader_locates_block_witness :
  let file := ([xff; xfe; xfd] ++ [x68; x69] ++ [x00; x00; x00; x02] ++ MAGIC_STR)%list in
  unpack_i big [x00; x00; x00; x02] = inr (Z.of_nat (List.length [x68; x69])) /\
  ptd_reader big (list byte) ret file initial_world
  = (inr [x68; x69], mkWorld (3 + 2) [EvRead (3 + 2 + 4) 20; EvRead (3 + 2) 4; EvRead 3 2]) /\
  Forall (read_in_bounds (Z.of_nat (List.length file)))
    (trace (snd (ptd_reader big (list byte) ret file initial_world))).
Proof.
  intros file. split; [reflexivity|].
  exact (ptd_reader_locates_block big (list byte) ret
           [xff; xfe; xfd] [x68; x69] [x00; x00; x00; x02] eq_refl).
Defined.

(** A length field below -1: the seek lands beyond the field, and
    [fp.read] refuses the negative length with ValueError.  The decoder
    is not called. *)
Theorem ptd_reader_negative_length (host : byteorder) (T : Type)
  (read_file : list byte -> res T) (pre field : list byte) (offset : Z) :
  unpack_i host field = inr offset ->
  offset < -1 ->
  ptd_reader host T read_file (pre ++ field ++ MAGIC_STR) initial_world
  = (inl ValueError,
     mkWorld (Z.of_nat (List.length pre) - offset)
       [EvRead (Z.of_nat (List.length pre) + 4) 20;
        EvRead (Z.of_nat (List.length pre)) 4]).
Proof.
  intros Hu Hoff.
  rewrite (ptd_reader_trailer host T read_file pre field offset _ Hu).
  pose proof (unpack_i_length _ _ _ Hu) as Hf.
  set (file := (pre ++ field ++ MAGIC_STR)%list).
  assert (Hlen : Z.of_nat (List.length file) = Z.of_nat (List.length pre) + 24).
  { unfold file. rewrite !length_app, Hf.
    change (List.length MAGIC_STR) with 20%nat. lia. }
  unfold read_block, io_bind at 1.
  rewrite seek_end_ok by (rewrite Hlen, MAGIC_STR_LEN_20; unfold calcsize_i; lia).
  unfold io_bind, read.
  destruct (offset <? -1) eqn:E; [|apply Z.ltb_ge in E; lia].
  cbn [trace initial_world app]. rewrite Hlen, MAGIC_STR_LEN_20. unfold calcsize_i.
  replace (Z.of_nat (List.length pre) + 24 + (- offset - 20 - 4))
    with (Z.of_nat (List.length pre) - offset) by lia.
  reflexivity.
Qed.

Lemma ptd_reader_negative_length_witness :
  unpack_i little [xfd; xff; xff; xff] = inr (-3) /\
  -3 < -1 /\
  ptd_reader little (list byte) ret
    ([x68; x69] ++ [xfd; xff; xff; xff] ++ MAGIC_STR) initial_world
  = (inl ValueError, mkWorld (2 - -3) [EvRead (2 + 4) 20; EvRead 2 4]).
Proof.
  split; [reflexivity|]. split; [reflexivity|].
  exact (ptd_reader_negative_length little (list byte) ret
           [x68; x69] [xfd; xff; xff; xff] (-3) eq_refl eq_refl).
Defined.

(** A file that ends with the magic string but has fewer than four bytes
    in front of it has no room for the length field: after the read of
    the magic string, the seek to the field is refused with OSError. *)
Theorem ptd_reader_no_length_field (host : byteorder) (T : Type)
  (read_file : list byte -> res T) (pre : list byte) :
  (List.length pre < 4)%nat ->
  ptd_reader host T read_file (pre ++ MAGIC_STR) initial_world
  = (inl OSError,
     mkWorld (Z.of_nat (List.length pre) + 20)
       [EvRead (Z.of_nat (List.length pre)) 20]).
Proof.
  intros Hpre.
  assert (Hlen : Z.of_nat (List.length (pre ++ MAGIC_STR))
                 = Z.of_nat (List.length pre) + 20).
  { rewrite length_app. change (List.length MAGIC_STR) with 20%nat. lia. }
  unfold ptd_reader, io_bind at 1.
  rewrite seek_end_ok by (rewrite Hlen, MAGIC_STR_LEN_20; lia).
  unfold io_bind at 1.
  pose proof (read_part pre MAGIC_STR []) as R. rewrite app_nil_r in R.
  change (Z.of_nat (List.length MAGIC_STR)) with MAGIC_STR_LEN in R.
  rewrite R by (cbn [fpos]; rewrite Hlen, MAGIC_STR_LEN_20; lia).
  unfold io_bind at 1. rewrite bytes_eqb_refl. cbn [negb].
  unfold io_bind at 1, io_ret at 1.
  rewrite seek_end_before_start
    by (rewrite Hlen, MAGIC_STR_LEN_20; unfold calcsize_i; lia).
  rewrite MAGIC_STR_LEN_20. reflexivity.
Qed.

Lemma ptd_reader_no_length_field_witness :
  (List.length [x68; x69] < 4)%nat /\
  ptd_reader little (list byte) ret ([x68; x69] ++ MAGIC_STR) initial_world
  = (inl OSError, mkWorld (2 + 20) [EvRead 2 20]).
Proof.
  split; [repeat constructor|].
  exact (ptd_reader_no_length_field little (list byte) ret [x68; x69]
           ltac:(repeat constructor)).
Defined.


Lemma writes_app (t u : list event) : writes (t ++ u) = (writes t ++ writes u)%list.
Proof. unfold writes. apply filter_app. Qed.

Lemma quiet_bind {A B} (m : io A) (k : A -> io B) :
  quiet m -> (forall a, quiet (k a)) -> quiet (io_bind m k).
Proof.
  intros Hm Hk w. unfold io_bind. specialize (Hm w).
  destruct (m w) as [[e|a] w1]; cbn [snd] in *; [exact Hm|].
  rewrite (Hk a w1). exact Hm.
Qed.

Lemma quiet_seek_end (contents : list byte) (off : Z) : quiet (seek_end contents off).
Proof. intros w. unfold seek_end. destruct (_ <? 0); reflexivity. Qed.

Lemma quiet_read (contents : list byte) (n : Z) : quiet (read contents n).
Proof.
  intros w. unfold read. destruct (n <? -1); [reflexivity|].
  cbn [snd trace]. rewrite writes_app. cbn. apply app_nil_r.
Qed.

Lemma quiet_print (msg : string) : quiet (print msg).
Proof. intros w. unfold print, emit. cbn [snd trace]. rewrite writes_app. cbn. apply app_nil_r. Qed.

Lemma quiet_lift {A} (r : res A) : quiet (io_lift r).
Proof. intros w. reflexivity. Qed.

Lemma quiet_raise {A} (e : exn) : quiet (@io_raise A e).
Proof. intros w. reflexivity. Qed.

Lemma quiet_ret {A} (a : A) : quiet (io_ret a).
Proof. intros w. reflexivity. Qed.

(** The reader writes no document, on any file. *)
Lemma quiet_ptd_reader (host : byteorder) (T : Type)
  (read_file : list byte -> res T) (contents : list byte) :
  quiet (ptd_reader host T read_file contents).
Proof.
  unfold ptd_reader.
  repeat (first
    [ apply quiet_bind; [|intros ?]
    | apply quiet_seek_end | apply quiet_read | apply quiet_print
    | apply quiet_lift | apply quiet_raise | apply quiet_ret
    | match goal with |- quiet (if ?c then _ else _) => destruct c end ]).
Qed.

(** All or nothing: on any file and with any decoder, the script writes
    exactly one document, the one of the decoded header and as its last
    act, when it ends normally, and writes nothing when it raises. *)
Theorem main_all_or_nothing (host : byteorder)
  (read_file : list byte -> res dataset) (cfg : config) (contents : list byte) :
  let run := main host read_file cfg contents initial_world in
  match fst run with
  | inr _ =>
      exists ptd t,
        fst (ptd_reader host dataset read_file contents initial_world) = inr ptd /\
        trace (snd run)
        = (t ++ [EvWrite output_filepath (metadata_document cfg (parse_header ptd))])%list /\
        writes t = []
  | inl _ => writes (trace (snd run)) = []
  end.
Proof.
  intros run. unfold run, main.
  destruct (endswith (ptd_file cfg) ".ptd"); [|reflexivity].
  unfold io_bind.
  pose proof (quiet_ptd_reader host dataset read_file contents initial_world) as Q.
  destruct (ptd_reader host dataset read_file contents initial_world)
    as [[e|ptd] w1]; cbn [fst snd] in *.
  - exact Q.
  - unfold emit. cbn [fst snd trace].
    exists ptd, (trace w1). repeat split. exact Q.
Qed.

(** End to end: for a file named [*.ptd] that holds a payload, a header
    block, the length of the block and the magic string, and whose block
    the decoder accepts, the script ends normally after the three reads
    and one write: the document that wraps the flattened header under
    the hierarchy level, with the file name and the modality PT. *)
Theorem main_writes_document (host : byteorder)
  (read_file : list byte -> res dataset) (cfg : config)
  (payload header field : list byte) (ptd : dataset) :
  endswith (ptd_file cfg) ".ptd" = true ->
  unpack_i host field = inr (Z.of_nat (List.length header)) ->
  read_file header = inr ptd ->
  let p := Z.of_nat (List.length payload) in
  let n := Z.of_nat (List.length header) in
  main host read_file cfg (payload ++ header ++ field ++ MAGIC_STR) initial_world
  = (inr tt,
     mkWorld (p + n)
       [EvRead (p + n + 4) 20; EvRead (p + n) 4; EvRead p n;
        EvWrite output_filepath (metadata_document cfg (parse_header ptd))]).
Proof.
  intros Hext Hu Hr p n. unfold main. rewrite Hext. unfold io_bind.
  rewrite (ptd_reader_payload host dataset read_file payload header field Hu), Hr.
  reflexivity.
Qed.

Lemma main_writes_document_witness :
  let cfg := mkConfig "/flywheel/v0/input/file/scan.ptd" "scan.ptd" "acquisition" "" in
  let decoder := fun b : list byte =>
    ret [("SeriesNumber", Plain (VInt (Z.of_nat (List.length b))))] in
  endswith (ptd_file cfg) ".ptd" = true /\
  unpack_i little [x02; x00; x00; x00] = inr (Z.of_nat (List.length [x68; x69])) /\
  decoder [x68; x69] = inr [("SeriesNumber", Plain (VInt 2))] /\
  main little decoder cfg
    ([xff] ++ [x68; x69] ++ [x02; x00; x00; x00] ++ MAGIC_STR) initial_world
  = (inr tt,
     mkWorld (1 + 2)
       [EvRead (1 + 2 + 4) 20; EvRead (1 + 2) 4; EvRead 1 2;
        EvWrite output_filepath
          (metadata_document cfg
             (parse_header [("SeriesNumber", Plain (VInt 2))]))]).
Proof.
  intros cfg decoder.
  split; [reflexivity|]. split; [reflexivity|]. split; [reflexivity|].
  exact (main_writes_document little decoder cfg [xff] [x68; x69]
           [x02; x00; x00; x00] _ eq_refl eq_refl eq_refl).
Defined.
